(** * LifePilot: mood-based task selection and travel-aware scheduling

    A shallow embedding of the decision procedures of the LifePilot
    application and the properties its specification states about them:

    - [SuggestedTask.fetchSuggestedTask]
        (the [SuggestedTask] component, single suggestion),
    - [TaskList.sortTasksByMood]
        (the [TaskList] component, full ranked list),
    - [CalculateTravel.handler]
        (the [calculate-travel] edge function, leave-time back-calculation
        over a batch of calendar events).

    JavaScript numbers that hold integers (difficulty, minutes, seconds,
    epoch milliseconds) are embedded as [Z]; JavaScript arithmetic on them
    is exact below 2^53.  An instant is the number of milliseconds since
    the epoch; a JavaScript [Date] holds an instant of at most 8.64e15 ms
    on either side of the epoch, or is invalid. *)

From Stdlib Require Import ZArith List String Ascii Bool Lia DecimalString.
From Stdlib Require Import Permutation Sorted.
Import ListNotations.
Open Scope Z_scope.

(* ===================================================================== *)
(** * The fragment of the JavaScript runtime the programs rely on *)
(* ===================================================================== *)

Module JS.

(** A computation either completes with a value or throws. *)
Inductive result (A : Type) : Type :=
| Ok (a : A)
| Throw (e : string).
Arguments Ok {A} a.
Arguments Throw {A} e.

Definition bind {A B : Type} (m : result A) (k : A -> result B) : result B :=
  match m with
  | Ok a => k a
  | Throw e => Throw e
  end.

(** [try { m } catch { h }] *)
Definition try_catch {A : Type} (m : result A) (h : string -> A) : A :=
  match m with
  | Ok a => a
  | Throw e => h e
  end.

(** [arr.reduce(f)] without an initial value: the first element seeds the
    accumulator; on an empty array it throws a [TypeError]. *)
Definition reduce {A : Type} (f : A -> A -> A) (arr : list A) : result A :=
  match arr with
  | [] => Throw "TypeError: Reduce of empty array with no initial value"
  | x :: rest => Ok (fold_left f rest x)
  end.

(** [arr[i]]; [None] stands for [undefined]. *)
Definition index {A : Type} (arr : list A) (i : nat) : option A :=
  nth_error arr i.

(** [arr[i].prop...]: reading a property of [undefined] throws. *)
Definition index_deref {A : Type} (arr : list A) (i : nat) : result A :=
  match nth_error arr i with
  | Some a => Ok a
  | None => Throw "TypeError: Cannot read properties of undefined"
  end.

(** [arr.sort(cmp)].  Since ECMAScript 2019 the sort is stable; for a
    comparator that is a consistent ordering the result is the unique
    stable sorted arrangement, which a stable insertion sort computes:
    [x] is placed in front of the first [y] of the already sorted suffix
    for which [cmp x y <= 0] (on a tie the earlier element stays first). *)
Section Sort.
Context {A : Type} (cmp : A -> A -> Z).

Fixpoint insert (x : A) (l : list A) : list A :=
  match l with
  | [] => [x]
  | y :: l' => if cmp x y <=? 0 then x :: y :: l' else y :: insert x l'
  end.

Fixpoint sort (l : list A) : list A :=
  match l with
  | [] => []
  | x :: l' => insert x (sort l')
  end.
End Sort.

End JS.

Import JS.

Declare Scope js_scope.
Delimit Scope js_scope with js.
Notation "x <- m ;; k" := (bind m (fun x => k))
  (at level 100, m at next level, right associativity) : js_scope.

(* ===================================================================== *)
(** * Tasks *)
(* ===================================================================== *)

(** [priority: "low" | "medium" | "high"] *)
Inductive Priority : Type := low | medium | high.

Definition Priority_eqb (p q : Priority) : bool :=
  match p, q with
  | low, low | medium, medium | high, high => true
  | _, _ => false
  end.

(** [interface Task], declared alike in [SuggestedTask] and [TaskList]. *)
Record Task : Type := {
  id : string;
  user_id : string;
  title : string;
  description : option string;
  priority : Priority;
  difficulty : Z;
  estimated_time : option Z;
  completed : bool;
  completed_at : option string;
  created_at : string;
  updated_at : string
}.

(* ===================================================================== *)
(** * SuggestedTask: the single suggestion *)
(* ===================================================================== *)

Module SuggestedTask.

Definition is_easy (t : Task) : bool := difficulty t <=? 3.
Definition is_hard (t : Task) : bool := 4 <=? difficulty t.
Definition is_medium (t : Task) : bool := Priority_eqb (priority t) medium.
Definition is_high (t : Task) : bool := Priority_eqb (priority t) high.

(** The reducer of the low branch:
    [(prev, current) => current.difficulty < prev.difficulty ? current : prev] *)
Definition easier (prev current : Task) : Task :=
  if difficulty current <? difficulty prev then current else prev.

(** [fetchSuggestedTask], from [const tasks = data || []] on: [tasks] is
    the result of the query for the user's tasks with [completed = false];
    the result is the value handed to [setSuggestedTask] ([None] is
    [null]). *)
Definition fetchSuggestedTask (mood : Z) (tasks : list Task)
  : result (option Task) :=
  if (List.length tasks =? 0)%nat then Ok None
  else if mood <=? 2 then
    let easyTasks := filter is_easy tasks in
    if (0 <? List.length easyTasks)%nat then
      (suggested <- reduce easier easyTasks ;; Ok (Some suggested))%js
    else Ok None
  else if mood =? 3 then
    let mediumTasks := filter is_medium tasks in
    Ok (if (0 <? List.length mediumTasks)%nat
        then index mediumTasks 0 else index tasks 0)
  else
    let hardTasks := filter is_hard tasks in
    let highPriorityTasks :=
      if (0 <? List.length hardTasks)%nat
      then filter is_high hardTasks
      else filter is_high tasks in
    Ok (if (0 <? List.length highPriorityTasks)%nat
        then index highPriorityTasks 0 else index tasks 0).

(** The component's effect on a change of [mood] ([mood: number | null]):
    [if (mood) fetchSuggestedTask() else setSuggestedTask(null)].
    [null] and [0] are falsy. *)
Definition truthy (mood : option Z) : bool :=
  match mood with
  | Some m => negb (m =? 0)
  | None => false
  end.

Definition onMoodChange (mood : option Z) (tasks : list Task)
  : result (option Task) :=
  match mood with
  | Some m => if truthy mood then fetchSuggestedTask m tasks else Ok None
  | None => Ok None
  end.

(** The high-mood rule in the words of the specification: the first task
    with [difficulty >= 4] and [priority = high], else the first task with
    [priority = high], else the first task. *)
Definition spec_high (tasks : list Task) : option Task :=
  match find (fun t => is_hard t && is_high t) tasks with
  | Some t => Some t
  | None =>
      match find is_high tasks with
      | Some t => Some t
      | None => hd_error tasks
      end
  end.

End SuggestedTask.


(* ===================================================================== *)
(** * TaskList: the full ranked list *)
(* ===================================================================== *)

(** The [TaskList] component the page renders (the one with [refreshKey]
    and [onStatsUpdate]).  The sources also hold an earlier [TaskList] whose
    [sortTasksByMood] reorders without filtering; it is not the subject
    here. *)
Module TaskList.

(** [const priorityWeight = { high: 3, medium: 2, low: 1 }] *)
Definition priorityWeight (p : Priority) : Z :=
  match p with
  | high => 3
  | medium => 2
  | low => 1
  end.

(** [priorityWeight[t.priority] * 10 + t.difficulty] *)
Definition score (t : Task) : Z := priorityWeight (priority t) * 10 + difficulty t.

(** The comparator of the low branch: [(a, b) => a.difficulty - b.difficulty] *)
Definition byDifficulty (a b : Task) : Z := difficulty a - difficulty b.

(** The comparator of the neutral and of the high branch:
    [(a, b) => { ...; return scoreB - scoreA; }] *)
Definition byScore (a b : Task) : Z :=
  let scoreA := score a in
  let scoreB := score b in
  scoreB - scoreA.

Definition sortTasksByMood (tasks : list Task) (mood : Z) : list Task :=
  let incompleteTasks := filter (fun task => negb (completed task)) tasks in
  if mood <=? 2 then
    let suitableTasks :=
      filter (fun task => difficulty task <=? 3) incompleteTasks in
    sort byDifficulty suitableTasks
  else if mood =? 3 then
    sort byScore incompleteTasks
  else
    sort byScore incompleteTasks.

End TaskList.

(* ===================================================================== *)
(** * Dates *)
(* ===================================================================== *)

(** [Date.prototype.toISOString] and the reading of a UTC calendar date as
    an instant, over the proleptic Gregorian calendar (ECMAScript, Date
    objects).  [toISOString] below is the text of an instant; the [Date]
    objects, which may be invalid, follow it. *)
Module Date.

Definition msPerDay : Z := 86400000.

(** Day number (days since 1970-01-01) of a calendar date, month 1..12. *)
Definition days_from_civil (y m d : Z) : Z :=
  let y' := if m <=? 2 then y - 1 else y in
  let era := y' / 400 in
  let yoe := y' - era * 400 in
  let mp := if 2 <? m then m - 3 else m + 9 in
  let doy := (153 * mp + 2) / 5 + d - 1 in
  let doe := yoe * 365 + yoe / 4 - yoe / 100 + doy in
  era * 146097 + doe - 719468.

(** Calendar date (year, month 1..12, day) of a day number. *)
Definition civil_from_days (days : Z) : Z * Z * Z :=
  let z := days + 719468 in
  let era := z / 146097 in
  let doe := z - era * 146097 in
  let yoe := (doe - doe / 1460 + doe / 36524 - doe / 146096) / 365 in
  let y := yoe + era * 400 in
  let doy := doe - (365 * yoe + yoe / 4 - yoe / 100) in
  let mp := (5 * doy + 2) / 153 in
  let d := doy - (153 * mp + 2) / 5 + 1 in
  let m := if mp <? 10 then mp + 3 else mp - 9 in
  (if m <=? 2 then y + 1 else y, m, d).

(** The instant [y-m-dThh:mm:ssZ]. *)
Definition utc (y m d hh mm ss : Z) : Z :=
  (((days_from_civil y m d * 24 + hh) * 60 + mm) * 60 + ss) * 1000.

Definition digit (n : Z) : ascii := ascii_of_nat (48 + Z.to_nat n).

(** The [w] low decimal digits of [n], zero padded. *)
Fixpoint digits (w : nat) (n : Z) : string :=
  match w with
  | O => EmptyString
  | S w' => String.append (digits w' (n / 10)) (String (digit (n mod 10)) EmptyString)
  end.

(** Years 0..9999 are written with four digits, others with a sign and six. *)
Definition year_string (y : Z) : string :=
  if (0 <=? y) && (y <=? 9999) then digits 4 y
  else String.append (if y <? 0 then "-" else "+") (digits 6 (Z.abs y)).

Definition toISOString (t : Z) : string :=
  let day := t / msPerDay in
  let ms := t mod msPerDay in
  let '(y, m, d) := civil_from_days day in
  String.concat EmptyString
    [ year_string y; "-"; digits 2 m; "-"; digits 2 d; "T";
      digits 2 (ms / 3600000); ":"; digits 2 (ms / 60000 mod 60); ":";
      digits 2 (ms / 1000 mod 60); "."; digits 3 (ms mod 1000); "Z" ]%string.

(** The largest time value of a [Date]. *)
Definition maxTime : Z := 8640000000000000.

(** [new Date(value)] as its time value: [None] is [NaN], the time value of
    an invalid date, which any value beyond [maxTime] gives (TimeClip). *)
Definition timeClip (value : Z) : option Z :=
  if Z.abs value <=? maxTime then Some value else None.

(** [d.toISOString()] for a [Date] object: an invalid date throws. *)
Definition toISOStringOrThrow (d : option Z) : result string :=
  match d with
  | Some t => Ok (toISOString t)
  | None => Throw "RangeError: Invalid time value"
  end.

End Date.

(* ===================================================================== *)
(** * calculate-travel: leave times for the upcoming events *)
(* ===================================================================== *)

Module CalculateTravel.

(** The columns of [profiles] the function selects. *)
Record Profile : Type := {
  home_location : option string;
  cooking_time : option Z;
  getting_ready_time : option Z;
  travel_buffer_time : option Z;
  wake_up_margin : option Z
}.

(** A row of [calendar_events].  [start_time] is the instant the column
    holds; its text is taken to be in a form [new Date(event.start_time)]
    reads, to the [Date] of that instant or, when the instant is beyond the
    range of a [Date], to an invalid one. *)
Record CalendarEvent : Type := {
  id : string;
  user_id : string;
  google_event_id : string;
  title : string;
  description : option string;
  location : option string;
  start_time : Z;
  end_time : string;
  synced_at : string;
  created_at : string;
  updated_at : string;
  travel_time_seconds : option Z;
  recommended_leave_time : option string
}.

(** The part of a Directions API answer the function reads:
    [data.status] and [data.routes[i].legs[j].duration.value]. *)
Record Leg : Type := { duration_value : Z }.
Record Route : Type := { legs : list Leg }.
Record Directions : Type := { status : string; routes : list Route }.

(** An element of [updates]. *)
Module Update.
Record t : Type := {
  id : string;
  travel_time_seconds : Z;
  recommended_leave_time : string
}.
End Update.

(** What the function sees of the request and of the services it calls. *)
Record Env : Type := {
  (** [req.method] *)
  method : string;
  (** [req.headers.get('Authorization')] *)
  authorization : option string;
  (** [supabase.auth.getUser()]: the id of the authenticated user *)
  user : option string;
  (** the [profiles] row with a given id, [.single()] *)
  profiles : string -> option Profile;
  (** [eventsError] of the query on [calendar_events] *)
  eventsError : option string;
  (** [new Date()], the time of the query *)
  now : Z;
  (** [await fetch(directionsUrl)] followed by [await response.json()] for
      an event: the parsed answer, or an exception *)
  directions : CalendarEvent -> result Directions;
  (** [public.update_updated_at_column()], the function of the trigger
      [update_calendar_events_updated_at BEFORE UPDATE ... FOR EACH ROW] of
      the table: from the old row and the new row to the row stored.  The
      migration declares the trigger; the function is declared outside
      these sources. *)
  update_updated_at_column : CalendarEvent -> CalendarEvent -> CalendarEvent;
  (** the answer to [.update({ ... }).eq('id', update.id)] for an element
      of [updates]: [true] when the database carried the statement out,
      [false] when it answered with an error.  The function does not read
      the answer. *)
  updateCarriedOut : Update.t -> bool
}.

(** The four instants of the chain. *)
Record Schedule : Type := {
  leaveTime : Z;
  getReadyTime : Z;
  cookStartTime : Z;
  wakeUpTime : Z
}.

Inductive Response : Type :=
| Preflight                      (* [new Response(null)] for OPTIONS *)
| Updated (updated : nat)        (* 200, [{ updated: updates.length }] *)
| Failed (error : string).       (* 400, [{ error: error.message }] *)

(** A nullable number in arithmetic: [null * 60] is [0]. *)
Definition num (n : option Z) : Z :=
  match n with
  | Some v => v
  | None => 0
  end.

(** [!s] for a nullable string: [null] and the empty string are falsy. *)
Definition falsy (s : option string) : bool :=
  match s with
  | Some EmptyString | None => true
  | Some _ => false
  end.

Definition notNull {A : Type} (v : option A) : bool :=
  match v with
  | Some _ => true
  | None => false
  end.

(** The arithmetic between [if (data.status === 'OK' ...)] and
    [updates.push]: [eventStart] is [new Date(event.start_time)]. *)
Definition schedule (profile : Profile) (eventStart travelSeconds : Z) : Schedule :=
  let travelWithBuffer := travelSeconds + num (travel_buffer_time profile) * 60 in
  let leaveTime := eventStart - travelWithBuffer * 1000 in
  let getReadyTime := leaveTime - num (getting_ready_time profile) * 60 * 1000 in
  let cookStartTime := getReadyTime - num (cooking_time profile) * 60 * 1000 in
  let wakeUpTime := cookStartTime - num (wake_up_margin profile) * 60 * 1000 in
  {| leaveTime := leaveTime;
     getReadyTime := getReadyTime;
     cookStartTime := cookStartTime;
     wakeUpTime := wakeUpTime |}.

(** The [Date] object [leaveTime] of the loop body.  [eventStart] is
    [new Date(event.start_time)]; when it is invalid its time value is
    [NaN] and so is every time value computed from it.  The three later
    [Date] objects are built from [leaveTime] in the same way and are not
    read again. *)
Definition leaveDate (profile : Profile) (event : CalendarEvent)
    (travelSeconds : Z) : option Z :=
  match Date.timeClip (start_time event) with
  | Some eventStart =>
      Date.timeClip (leaveTime (schedule profile eventStart travelSeconds))
  | None => None
  end.

(** The body of the inner [try]: the new value of [updates], or the
    exception that reaches the [catch].  [leaveTime.toISOString()] is
    evaluated inside the [try], in the argument of [updates.push]. *)
Definition tryEvent (env : Env) (profile : Profile) (event : CalendarEvent)
    (updates : list Update.t) : result (list Update.t) :=
  (data <- directions env event ;;
   if (status data =? "OK")%string && (0 <? List.length (routes data))%nat then
     route <- index_deref (routes data) 0 ;;
     leg <- index_deref (legs route) 0 ;;
     let travelSeconds := duration_value leg in
     recommended_leave_time <-
       Date.toISOStringOrThrow (leaveDate profile event travelSeconds) ;;
     Ok (updates ++
         [ {| Update.id := id event;
              Update.travel_time_seconds := travelSeconds;
              Update.recommended_leave_time := recommended_leave_time |} ])
   else Ok updates)%js.

(** [for (const event of events || []) { try { ... } catch { console.error } }] *)
Fixpoint forEvents (env : Env) (profile : Profile) (events : list CalendarEvent)
    (updates : list Update.t) : list Update.t :=
  match events with
  | [] => updates
  | event :: rest =>
      forEvents env profile rest
        (try_catch (tryEvent env profile event updates) (fun _ => updates))
  end.

(** The filters of the query:
    [.eq('user_id', uid).not('location', 'is', null).gte('start_time', now)] *)
Definition selects (uid : string) (now : Z) (e : CalendarEvent) : bool :=
  (user_id e =? uid)%string && notNull (location e) && (now <=? start_time e).

(** [.from('calendar_events').select('*')] with these filters. *)
Definition selectEvents (uid : string) (now : Z) (table : list CalendarEvent)
  : list CalendarEvent :=
  filter (selects uid now) table.

(** A row after [.update({ travel_time_seconds, recommended_leave_time })]. *)
Definition patch (update : Update.t) (row : CalendarEvent) : CalendarEvent :=
  {| id := id row;
     user_id := user_id row;
     google_event_id := google_event_id row;
     title := title row;
     description := description row;
     location := location row;
     start_time := start_time row;
     end_time := end_time row;
     synced_at := synced_at row;
     created_at := created_at row;
     updated_at := updated_at row;
     travel_time_seconds := Some (Update.travel_time_seconds update);
     recommended_leave_time := Some (Update.recommended_leave_time update) |}.

(** [travel_time_seconds INTEGER]: the column holds a 32-bit integer. *)
Definition int4 (n : Z) : bool := (-2147483648 <=? n) && (n <=? 2147483647).

(** Whether the statement for [update] changes the table: the value has to
    fit the column, and the database has to carry the statement out. *)
Definition written (env : Env) (update : Update.t) : bool :=
  int4 (Update.travel_time_seconds update) && updateCarriedOut env update.

(** [.from('calendar_events').update({ ... }).eq('id', update.id)]: every
    row with this id is replaced by what the trigger makes of its patched
    copy, or the statement fails and the table stays as it is.  The code
    does not look at the result of the statement. *)
Definition applyUpdate (env : Env) (table : list CalendarEvent)
    (update : Update.t) : list CalendarEvent :=
  if written env update then
    map (fun row => if (id row =? Update.id update)%string
                    then update_updated_at_column env row (patch update row)
                    else row) table
  else table.

(** [for (const update of updates) { await ... }] *)
Definition writeBack (env : Env) (table : list CalendarEvent)
    (updates : list Update.t) : list CalendarEvent :=
  fold_left (applyUpdate env) updates table.

(** The outer [try] block, on the table [calendar_events]: the number of
    updates and the table afterwards, or the exception thrown (which
    happens only before the first write). *)
Definition serve (env : Env) (table : list CalendarEvent)
  : result (nat * list CalendarEvent) :=
  (_ <- (if falsy (authorization env)
         then Throw "No authorization header" else Ok tt) ;;
   uid <- match user env with
          | Some uid => Ok uid
          | None => Throw "Not authenticated"
          end ;;
   profile <- match profiles env uid with
              | Some profile =>
                  if falsy (home_location profile)
                  then Throw "Home location not set in profile"
                  else Ok profile
              | None => Throw "Home location not set in profile"
              end ;;
   events <- match eventsError env with
             | Some e => Throw e
             | None => Ok (selectEvents uid (now env) table)
             end ;;
   let updates := forEvents env profile events [] in
   Ok (List.length updates, writeBack env table updates))%js.

(** [Deno.serve(async (req) => ...)]: the response and the table afterwards. *)
Definition handler (env : Env) (table : list CalendarEvent)
  : Response * list CalendarEvent :=
  if (method env =? "OPTIONS")%string then (Preflight, table)
  else
    match serve env table with
    | Ok (n, table') => (Updated n, table')
    | Throw e => (Failed e, table)
    end.

End CalculateTravel.

(* ===================================================================== *)
(** * Vocabulary of the statements *)
(* ===================================================================== *)

(** [x] is the first element of [l] that satisfies [P]. *)
Definition First {A : Type} (P : A -> Prop) (x : A) (l : list A) : Prop :=
  exists l1 l2, l = l1 ++ x :: l2 /\ P x /\ forall y, In y l1 -> ~ P y.

(** [l] is ordered by ascending (descending) key. *)
Definition Ascending {A : Type} (key : A -> Z) (l : list A) : Prop :=
  StronglySorted (fun a b => key a <= key b) l.

Definition Descending {A : Type} (key : A -> Z) (l : list A) : Prop :=
  StronglySorted (fun a b => key b <= key a) l.

(** The elements of [l] whose key is [k], in the order of [l]. *)
Definition withKey {A : Type} (key : A -> Z) (k : Z) (l : list A) : list A :=
  filter (fun a => key a =? k) l.

Module CalculateTravelSpec.
Import CalculateTravel.

(** The routing lookup of an event succeeds with a travel time: the call
    returns, with status OK and a first route that has a first leg. *)
Definition routing (env : Env) (event : CalendarEvent) : option Z :=
  match directions env event with
  | Ok data =>
      if (status data =? "OK")%string then
        match routes data with
        | {| legs := leg :: _ |} :: _ => Some (duration_value leg)
        | _ => None
        end
      else None
  | Throw _ => None
  end.

(** The lookup fails as the specification lists it: the call throws, or
    answers with another status than OK, or with no route. *)
Definition routingFails (env : Env) (event : CalendarEvent) : Prop :=
  (exists e, directions env event = Throw e) \/
  (exists data, directions env event = Ok data /\
                (status data <> "OK"%string \/ routes data = [])).

(** Durations in milliseconds. *)
Definition seconds (n : Z) : Z := n * 1000.
Definition minutes (n : Z) : Z := n * 60 * 1000.

(** An instant a [Date] can hold. *)
Definition inDateRange (t : Z) : Prop := - Date.maxTime <= t <= Date.maxTime.

(** The leave time of an event whose lookup gave [travelSeconds]: the
    event start less the travel time and the buffer. *)
Definition leaveAt (profile : Profile) (event : CalendarEvent)
    (travelSeconds : Z) : Z :=
  start_time event
  - seconds (travelSeconds + num (travel_buffer_time profile) * 60).

(** The update for an event whose lookup gave [travelSeconds], when both
    the event start and the leave time are instants a [Date] can hold. *)
Definition updateFor (profile : Profile) (event : CalendarEvent)
    (travelSeconds : Z) : option Update.t :=
  match leaveDate profile event travelSeconds with
  | Some leave =>
      Some {| Update.id := id event;
              Update.travel_time_seconds := travelSeconds;
              Update.recommended_leave_time := Date.toISOString leave |}
  | None => None
  end.

(** The update the turn of an event in the loop ends with, if any: the
    lookup has to succeed and the dates have to be valid. *)
Definition computed (env : Env) (profile : Profile) (event : CalendarEvent)
  : option Update.t :=
  match routing env event with
  | Some travelSeconds => updateFor profile event travelSeconds
  | None => None
  end.

(** What the loop pushes for one event. *)
Definition pushed (env : Env) (profile : Profile) (event : CalendarEvent)
  : list Update.t :=
  match computed env profile event with
  | Some update => [update]
  | None => []
  end.

(** A row after the updates, applied in their order. *)
Definition rowAfter (env : Env) (updates : list Update.t) (row : CalendarEvent)
  : CalendarEvent :=
  fold_left (fun row update =>
               if written env update then
                 if (id row =? Update.id update)%string
                 then update_updated_at_column env row (patch update row)
                 else row
               else row) updates row.

(** A row after an accepted request, as the statements put it: a selected
    event whose turn ends with an update gets its travel time and leave
    time when the database carries the statement out, and stays as it was
    otherwise. *)
Definition expected (env : Env) (uid : string) (profile : Profile)
    (row : CalendarEvent) : CalendarEvent :=
  if selects uid (now env) row then
    match computed env profile row with
    | Some update =>
        if written env update
        then update_updated_at_column env row (patch update row)
        else row
    | None => row
    end
  else row.

(** The trigger function leaves the primary key alone. *)
Definition keepsId (env : Env) : Prop :=
  forall old new, id (update_updated_at_column env old new) = id new.

(** The trigger function changes no column but [updated_at]. *)
Definition touchesUpdatedAtOnly (env : Env) : Prop :=
  forall old new,
    id (update_updated_at_column env old new) = id new /\
    user_id (update_updated_at_column env old new) = user_id new /\
    google_event_id (update_updated_at_column env old new) = google_event_id new /\
    title (update_updated_at_column env old new) = title new /\
    description (update_updated_at_column env old new) = description new /\
    location (update_updated_at_column env old new) = location new /\
    start_time (update_updated_at_column env old new) = start_time new /\
    end_time (update_updated_at_column env old new) = end_time new /\
    synced_at (update_updated_at_column env old new) = synced_at new /\
    created_at (update_updated_at_column env old new) = created_at new /\
    travel_time_seconds (update_updated_at_column env old new)
      = travel_time_seconds new /\
    recommended_leave_time (update_updated_at_column env old new)
      = recommended_leave_time new.



(** The request passes every check in front of the loop, for user [uid]
    with profile [profile]. *)
Definition accepted (env : Env) (uid : string) (profile : Profile) : Prop :=
  method env <> "OPTIONS"%string /\
  falsy (authorization env) = false /\
  user env = Some uid /\
  profiles env uid = Some profile /\
  falsy (home_location profile) = false /\
  eventsError env = None.


(** [env] at another time of the query. *)
Definition withNow (t : Z) (env : Env) : Env :=
  {| method := method env;
     authorization := authorization env;
     user := user env;
     profiles := profiles env;
     eventsError := eventsError env;
     now := t;
     directions := directions env;
     update_updated_at_column := update_updated_at_column env;
     updateCarriedOut := updateCarriedOut env |}.

End CalculateTravelSpec.

(* ===================================================================== *)
(** * Sample data *)
(* ===================================================================== *)

Module Sample.
Local Open Scope string_scope.

Definition task (name : string) (p : Priority) (d : Z) (done : bool) : Task :=
  {| id := name; user_id := "u1"; title := name; description := None;
     priority := p; difficulty := d; estimated_time := None;
     completed := done; completed_at := None;
     created_at := "2024-01-01T00:00:00Z"; updated_at := "2024-01-01T00:00:00Z" |}.

Definition chore : Task := task "water the plants" low 1 false.
Definition thesis : Task := task "thesis chapter" medium 5 false.
Definition taxes : Task := task "file taxes" high 2 false.
Definition email : Task := task "answer email" medium 2 false.
Definition laundry : Task := task "laundry" low 2 false.
Definition report : Task := task "quarterly report" high 4 false.
Definition call : Task := task "call the bank" medium 2 false.
Definition archived : Task := task "old errand" high 1 true.

(** A task with an estimate of its minutes. *)
Definition timed (t : Task) (minutes : option Z) : Task :=
  {| id := id t; user_id := user_id t; title := title t;
     description := description t; priority := priority t;
     difficulty := difficulty t; estimated_time := minutes;
     completed := completed t; completed_at := completed_at t;
     created_at := created_at t; updated_at := updated_at t |}.

Import CalculateTravel.

Definition event (name owner : string) (place : option string) (start : Z)
  : CalendarEvent :=
  {| id := name; user_id := owner; google_event_id := name; title := name;
     description := None; location := place; start_time := start;
     end_time := "2024-01-01T23:00:00Z"; synced_at := "2023-12-31T00:00:00Z";
     created_at := "2023-12-31T00:00:00Z"; updated_at := "2023-12-31T00:00:00Z";
     travel_time_seconds := None; recommended_leave_time := None |}.

Definition dinner : CalendarEvent :=
  event "e1" "u1" (Some "Harbour Grill") (Date.utc 2024 1 1 18 0 0).
Definition dentist : CalendarEvent :=
  event "e2" "u1" (Some "Elm Street 4") (Date.utc 2024 1 2 9 30 0).
Definition concert : CalendarEvent :=
  event "e3" "u1" (Some "Nowhere Hall") (Date.utc 2024 1 3 20 0 0).
Definition meeting : CalendarEvent :=
  event "e4" "u1" (Some "Office") (Date.utc 2024 1 4 8 0 0).
Definition flight : CalendarEvent :=
  event "e5" "u1" (Some "Airport") (Date.utc 2024 1 5 6 15 0).
Definition call_home : CalendarEvent :=
  event "e6" "u1" None (Date.utc 2024 1 6 12 0 0).
Definition others : CalendarEvent :=
  event "e7" "u2" (Some "Harbour Grill") (Date.utc 2024 1 1 18 0 0).

Definition table : list CalendarEvent :=
  [dinner; dentist; concert; meeting; flight; call_home; others].

Definition profile : Profile :=
  {| home_location := Some "Mill Lane 1";
     cooking_time := Some 30;
     getting_ready_time := Some 45;
     travel_buffer_time := Some 15;
     wake_up_margin := Some 30 |}.

Definition route (travelSeconds : Z) : Directions :=
  {| status := "OK";
     routes := [ {| legs := [ {| duration_value := travelSeconds |} ] |} ] |}.

(** The lookup for the concert fails; the others succeed. *)
Definition env : Env :=
  {| method := "POST";
     authorization := Some "Bearer token";
     user := Some "u1"%string;
     profiles := fun uid => if (uid =? "u1")%string then Some profile else None;
     eventsError := None;
     now := Date.utc 2023 12 31 12 0 0;
     directions := fun e =>
       if (id e =? "e3")%string then Throw "connection reset"
       else if (id e =? "e1")%string then Ok (route 1800)
       else Ok (route 600);
     update_updated_at_column := fun _ new =>
       {| id := id new; user_id := user_id new;
          google_event_id := google_event_id new; title := title new;
          description := description new; location := location new;
          start_time := start_time new; end_time := end_time new;
          synced_at := synced_at new; created_at := created_at new;
          updated_at := "2023-12-31T12:00:00Z";
          travel_time_seconds := travel_time_seconds new;
          recommended_leave_time := recommended_leave_time new |};
     updateCarriedOut := fun _ => true |}.

(** The same request with three odd answers of the directions service.  The
    lookup for the concert fails as before.  The answer for the dentist is
    OK with a route that has no leg; the one for the flight gives 9e12
    seconds, which puts the leave time before the first instant a [Date] can
    hold; the one for the meeting gives 3e9 seconds, more than the column
    [travel_time_seconds] can hold. *)
Definition oddEnv : Env :=
  {| method := method env;
     authorization := authorization env;
     user := user env;
     profiles := profiles env;
     eventsError := eventsError env;
     now := now env;
     directions := fun e =>
       if (id e =? "e3")%string then Throw "connection reset"
       else if (id e =? "e2")%string
       then Ok {| status := "OK"; routes := [ {| legs := [] |} ] |}
       else if (id e =? "e5")%string then Ok (route 9000000000000)
       else if (id e =? "e4")%string then Ok (route 3000000000)
       else Ok (route 600);
     update_updated_at_column := update_updated_at_column env;
     updateCarriedOut := updateCarriedOut env |}.

End Sample.

(* ===================================================================== *)
(** * SuggestedTask: the component around the suggestion *)
(* ===================================================================== *)

Module SuggestedTaskComponent.

(** [useState]: the suggestion and the loading flag. *)
Record State : Type := {
  suggestedTask : option Task;
  loading : bool
}.

(** What the backend answers during one [fetchSuggestedTask]. *)
Record Answers : Type := {
  (** [supabase.auth.getUser()]: the id of the user *)
  user : option string;
  (** [data] of the query for the user's open tasks *)
  data : option (list Task);
  (** [error] of that query *)
  error : option string
}.

Definition setLoading (b : bool) (st : State) : State :=
  {| suggestedTask := suggestedTask st; loading := b |}.

Definition setSuggestedTask (t : option Task) (st : State) : State :=
  {| suggestedTask := t; loading := loading st |}.

(** [fetchSuggestedTask] as a whole: the state it leaves, or the exception
    of its choice among the tasks. *)
Definition fetchSuggestedTask (mood : Z) (a : Answers) (st : State)
  : result State :=
  let st := setLoading true st in
  match user a with
  | None => Ok st
  | Some _ =>
      match error a with
      | Some _ => Ok (setLoading false st)
      | None =>
          let tasks := match data a with Some d => d | None => [] end in
          (suggested <- SuggestedTask.fetchSuggestedTask mood tasks ;;
           Ok (setLoading false (setSuggestedTask suggested st)))%js
      end
  end.

(** The effect on [mood] and [refreshKey]:
    [if (mood) fetchSuggestedTask() else setSuggestedTask(null)]. *)
Definition effect (mood : option Z) (a : Answers) (st : State) : result State :=
  match mood with
  | Some m =>
      if SuggestedTask.truthy mood then fetchSuggestedTask m a st
      else Ok (setSuggestedTask None st)
  | None => Ok (setSuggestedTask None st)
  end.

(** [getDifficultyColor] *)
Definition getDifficultyColor (difficulty : Z) : string :=
  if difficulty <=? 2 then "text-green-600"
  else if difficulty <=? 3 then "text-yellow-600"
  else "text-red-600".

(** [getMoodSuggestionMessage] *)
Definition getMoodSuggestionMessage (mood : option Z) : string :=
  match mood with
  | Some m =>
      if negb (SuggestedTask.truthy mood) then EmptyString
      else if m <=? 2 then "ðŸ’ª Start with something easy to build momentum"
      else if m =? 3 then "âš¡ Let's tackle a medium challenge"
      else "ðŸ”¥ Time to crush a big challenge!"
  | None => EmptyString
  end.

(** The card the component returns. *)
Inductive View : Type :=
| SelectYourMood               (* "Select your mood to get ..." *)
| Finding                      (* "Finding the perfect task for you..." *)
| AllCompleted                 (* "All tasks completed!" *)
| Suggested (t : Task) (message difficultyColor : string).

Definition render (mood : option Z) (st : State) : View :=
  if negb (SuggestedTask.truthy mood) then SelectYourMood
  else if loading st then Finding
  else
    match suggestedTask st with
    | None => AllCompleted
    | Some t =>
        Suggested t (getMoodSuggestionMessage mood)
                  (getDifficultyColor (difficulty t))
    end.

End SuggestedTaskComponent.

(* ===================================================================== *)
(** * MoodSelector and Dashboard *)
(* ===================================================================== *)

Module MoodSelector.



End MoodSelector.

Module Dashboard.


End Dashboard.

(* ===================================================================== *)
(** * TaskList: what the component shows *)
(* ===================================================================== *)

Module TaskListComponent.

(** In [fetchTasks]: [data] holds all tasks of the user, completed or not;
    [let sortedTasks = data || []; if (mood) sortedTasks =
    sortTasksByMood(sortedTasks, mood)]. *)
Definition sortedTasks (mood : option Z) (data : list Task) : list Task :=
  match mood with
  | Some m => if SuggestedTask.truthy mood
              then TaskList.sortTasksByMood data m else data
  | None => data
  end.

(** [const focusCount = sortedTasks.length] *)
Definition focusCount (mood : option Z) (data : list Task) : nat :=
  List.length (sortedTasks mood data).

(** [sortedTasks.reduce((sum, task) => sum + (task.estimated_time || 0), 0)] *)
Definition totalTimeMinutes (mood : option Z) (data : list Task) : Z :=
  fold_left (fun sum task =>
               sum + match estimated_time task with
                     | Some n => n
                     | None => 0
                     end)
            (sortedTasks mood data) 0.

(** What the component returns. *)
Inductive View : Type :=
| LoadingTasks       (* "Loading tasks..." *)
| NoEasyTasks        (* "No easy tasks available right now." *)
| NoTasksYet         (* "No tasks yet. Start by adding your first task!" *)
| Rows (tasks : list Task).

(** What the component returns once the tasks are loaded: [mood] is the
    mood of this rendering, [tasks] the state. *)
Definition render (mood : option Z) (tasks : list Task) : View :=
  if (List.length tasks =? 0)%nat then
    match mood with
    | Some m => if SuggestedTask.truthy mood && (m <=? 2)
                then NoEasyTasks else NoTasksYet
    | None => NoTasksYet
    end
  else Rows tasks.

(** [useState]: the tasks shown and the loading flag. *)
Record State : Type := {
  tasks : list Task;
  loading : bool
}.

(** [useState<Task[]>([])] and [useState(true)] *)
Definition initial : State := {| tasks := []; loading := true |}.

(** What the backend answers during one [fetchTasks]. *)
Record Answers : Type := {
  (** [supabase.auth.getUser()]: the id of the user *)
  user : option string;
  (** [data] of the query for the tasks of the user *)
  data : option (list Task);
  (** [error] of that query *)
  error : option string
}.

(** One run of [fetchTasks]: the state it leaves and the two numbers it
    computes for [onStatsUpdate], the count and the minutes (the minutes are
    handed on as hours with one decimal, which is not modelled).  [mood] is
    the mood of the rendering whose [fetchTasks] runs: the effect that
    calls it and subscribes to changes depends on [refreshKey] alone, so
    a new mood by itself starts no run. *)
Definition fetchTasks (mood : option Z) (a : Answers) (st : State)
  : State * option (nat * Z) :=
  match user a with
  | None => (st, None)
  | Some _ =>
      match error a with
      | Some _ => (st, None)
      | None =>
          let data := match data a with Some d => d | None => [] end in
          ({| tasks := sortedTasks mood data; loading := false |},
           Some (focusCount mood data, totalTimeMinutes mood data))
      end
  end.

(** The component with the mood of this rendering and its state. *)
Definition view (mood : option Z) (st : State) : View :=
  if loading st then LoadingTasks else render mood (tasks st).

End TaskListComponent.

(** The earlier [TaskList] of the sources: its [sortTasksByMood] sorts a
    copy of all tasks with one comparator that looks at the mood. *)
Module TaskListEarlier.

Definition priorityWeight (p : Priority) : Z :=
  match p with
  | high => 3
  | medium => 2
  | low => 1
  end.

Definition compare (mood : Z) (a b : Task) : Z :=
  if mood <=? 2 then difficulty a - difficulty b
  else if 4 <=? mood then
    let scoreA := priorityWeight (priority a) + difficulty a in
    let scoreB := priorityWeight (priority b) + difficulty b in
    scoreB - scoreA
  else 0.

Definition sortTasksByMood (tasks : list Task) (mood : Z) : list Task :=
  sort (compare mood) tasks.

End TaskListEarlier.

(* ===================================================================== *)
(** * CalendarPlanner: showing the travel time *)
(* ===================================================================== *)

Module CalendarPlanner.

(** [`${n}`] for an integer. *)
Definition toString (n : Z) : string := NilZero.string_of_int (Z.to_int n).

(** [Math.round(n / d)] for integers [n] and [d > 0]: the nearest integer,
    a half rounded up.  For [d = 60] and [0 <= n < 2^53] the double [n / 60]
    rounds as the exact quotient does: the quotient is half an integer
    exactly, which is a double, or at least 1/60 away from one, more than
    the error of the division (at most 1/64 below 2^48).  [Math.floor] of
    [minutes / 60] is exact in the same way. *)
Definition round_div (n d : Z) : Z := (2 * n + d) / (2 * d).

(** [formatDuration] *)
Definition formatDuration (seconds : Z) : string :=
  let minutes := round_div seconds 60 in
  if minutes <? 60 then String.append (toString minutes) "m"
  else
    let hours := minutes / 60 in
    let mins := Z.rem minutes 60 in
    String.append (toString hours)
      (String.append "h " (String.append (toString mins) "m")).

End CalendarPlanner.

(* ===================================================================== *)
(** * Settings: the routine durations *)
(* ===================================================================== *)

Module Settings.


(** The [profile] state of the page. *)
Module Form.
Record t : Type := {
  full_name : string;
  cooking_time : Z;
  getting_ready_time : Z;
  travel_buffer_time : Z;
  wake_up_margin : Z;
  home_location : string
}.
End Form.

(** [useState({ full_name: "", cooking_time: 30, ... })] *)
Definition initial : Form.t :=
  {| Form.full_name := EmptyString;
     Form.cooking_time := 30;
     Form.getting_ready_time := 45;
     Form.travel_buffer_time := 15;
     Form.wake_up_margin := 30;
     Form.home_location := EmptyString |}.






End Settings.

(** Further vocabulary for calculate-travel. *)
Module CalculateTravelSpecMore.
Import CalculateTravel.

(** [r'] agrees with [r] on every column but [updated_at]. *)
Definition sameButUpdatedAt (r r' : CalendarEvent) : Prop :=
  id r' = id r /\ user_id r' = user_id r /\
  google_event_id r' = google_event_id r /\ title r' = title r /\
  description r' = description r /\ location r' = location r /\
  start_time r' = start_time r /\ end_time r' = end_time r /\
  synced_at r' = synced_at r /\ created_at r' = created_at r /\
  travel_time_seconds r' = travel_time_seconds r /\
  recommended_leave_time r' = recommended_leave_time r.

(** The lookup of an event depends on its location only: the request is
    built from the home location of the profile and [event.location]. *)
Definition byLocation (env : Env) : Prop :=
  forall e e', location e = location e' -> directions env e = directions env e'.

End CalculateTravelSpecMore.

(** The sample request with a lookup keyed on the place: the lookup for
    "Nowhere Hall" fails, "Harbour Grill" is half an hour away, every other
    place ten minutes. *)
Module SampleByPlace.
Import CalculateTravel.
Local Open Scope string_scope.

Definition env : Env :=
  {| method := method Sample.env;
     authorization := authorization Sample.env;
     user := user Sample.env;
     profiles := profiles Sample.env;
     eventsError := eventsError Sample.env;
     now := now Sample.env;
     directions := fun e =>
       match location e with
       | Some place =>
           if place =? "Nowhere Hall" then Throw "connection reset"
           else if place =? "Harbour Grill" then Ok (Sample.route 1800)
           else Ok (Sample.route 600)
       | None => Ok (Sample.route 600)
       end;
     update_updated_at_column := update_updated_at_column Sample.env;
     updateCarriedOut := updateCarriedOut Sample.env |}.

End SampleByPlace.

(* ===================================================================== *)
(** * Facts about lists and the runtime *)
(* ===================================================================== *)

Lemma Priority_eqb_eq (p q : Priority) : Priority_eqb p q = true <-> p = q.
Proof. destruct p, q; simpl; split; congruence. Qed.

Lemma Priority_eqb_neq (p q : Priority) : Priority_eqb p q = false <-> p <> q.
Proof. destruct p, q; simpl; split; congruence. Qed.

Section FirstFacts.
Context {A : Type} (f : A -> bool).

(** The first element of [l] that passes [f] is the head of [filter f l]. *)
Lemma First_filter_head (l : list A) (x : A) :
  First (fun a => f a = true) x l -> exists rest, filter f l = x :: rest.
Proof.
  intros (l1 & l2 & -> & Fx & Hl1).
  induction l1 as [|a l1 IH]; simpl.
  - rewrite Fx. eauto.
  - destruct (f a) eqn:Fa.
    + exfalso. apply (Hl1 a); simpl; auto.
    + apply IH. intros y Hy. apply Hl1. now right.
Qed.

Lemma filter_nil_iff (l : list A) :
  filter f l = [] <-> forall a, In a l -> f a = false.
Proof.
  induction l as [|a l IH]; simpl.
  - split; [intros _ ? [] | reflexivity].
  - destruct (f a) eqn:Fa; split.
    + discriminate.
    + intros H. specialize (H a (or_introl eq_refl)). congruence.
    + intros H y [<-|Hy]; [assumption | now apply IH].
    + intros H. apply IH. intros y Hy. apply H. now right.
Qed.

(** A split of [filter f l] around [x] lifts to a split of [l]. *)
Lemma filter_split (l : list A) (l1 l2 : list A) (x : A) :
  filter f l = l1 ++ x :: l2 ->
  exists m1 m2, l = m1 ++ x :: m2 /\ filter f m1 = l1 /\ filter f m2 = l2.
Proof.
  revert l1. induction l as [|a l IH]; simpl; intros l1 H.
  - destruct l1; discriminate.
  - destruct (f a) eqn:Fa.
    + destruct l1 as [|b l1]; simpl in H; injection H as -> H.
      * exists [], l. auto.
      * destruct (IH _ H) as (m1 & m2 & -> & E1 & E2).
        exists (b :: m1), m2. simpl. rewrite Fa, E1. auto.
    + destruct (IH _ H) as (m1 & m2 & -> & E1 & E2).
      exists (a :: m1), m2. simpl. rewrite Fa. auto.
Qed.

End FirstFacts.

Lemma First_ext {A : Type} (P Q : A -> Prop) (x : A) (l : list A) :
  (forall a, P a <-> Q a) -> First P x l -> First Q x l.
Proof.
  intros HPQ (l1 & l2 & E & Px & Hl1).
  exists l1, l2. split; [assumption|]. split; [now apply HPQ|].
  intros y Hy Qy. apply (Hl1 y Hy). now apply HPQ.
Qed.

Lemma filter_filter_andb {A : Type} (f g : A -> bool) (l : list A) :
  filter f (filter g l) = filter (fun a => g a && f a) l.
Proof.
  induction l as [|a l IH]; simpl; [reflexivity|].
  destruct (g a); simpl; [destruct (f a)|]; now rewrite IH.
Qed.

(** ** The sort *)

Section SortFacts.
Context {A : Type} (cmp : A -> A -> Z).

Lemma insert_perm (x : A) (l : list A) : Permutation (insert cmp x l) (x :: l).
Proof.
  induction l as [|y l IH]; simpl; [reflexivity|].
  destruct (cmp x y <=? 0); [reflexivity|].
  rewrite IH. apply perm_swap.
Qed.

Lemma sort_perm (l : list A) : Permutation (sort cmp l) l.
Proof.
  induction l as [|x l IH]; simpl; [reflexivity|].
  rewrite insert_perm. now constructor.
Qed.

Lemma sort_length (l : list A) : List.length (sort cmp l) = List.length l.
Proof. apply Permutation_length, sort_perm. Qed.

Lemma sort_In (l : list A) (x : A) : In x (sort cmp l) <-> In x l.
Proof.
  split; apply Permutation_in; [| symmetry]; apply sort_perm.
Qed.

(** The comparator orders by an integer key. *)
Context (key : A -> Z).
Hypothesis cmp_key : forall a b, cmp a b <= 0 <-> key a <= key b.

Lemma insert_Ascending (x : A) (l : list A) :
  Ascending key l -> Ascending key (insert cmp x l).
Proof.
  unfold Ascending. induction 1 as [|y l Hl IH Hy]; simpl.
  - repeat constructor.
  - destruct (Z.leb_spec (cmp x y) 0) as [Hc|Hc].
    + apply cmp_key in Hc. constructor.
      * now constructor.
      * constructor; [assumption|].
        eapply Forall_impl; [|exact Hy]. simpl. intros; lia.
    + constructor; [assumption|].
      assert (key y <= key x) by (pose proof (cmp_key x y); lia).
      eapply Permutation_Forall; [symmetry; apply insert_perm|].
      now constructor.
Qed.

Lemma sort_Ascending (l : list A) : Ascending key (sort cmp l).
Proof.
  induction l as [|x l IH]; simpl.
  - constructor.
  - now apply insert_Ascending.
Qed.

Lemma insert_withKey (k : Z) (x : A) (l : list A) :
  withKey key k (insert cmp x l) = withKey key k (x :: l).
Proof.
  unfold withKey. induction l as [|y l IH]; simpl; [reflexivity|].
  destruct (Z.leb_spec (cmp x y) 0) as [Hc|Hc]; simpl; [reflexivity|].
  rewrite IH. simpl.
  assert (key y < key x) by (pose proof (cmp_key x y); lia).
  destruct (Z.eqb_spec (key x) k), (Z.eqb_spec (key y) k); try reflexivity.
  lia.
Qed.

(** Stability: elements with equal keys keep their relative order. *)
Lemma sort_stable (k : Z) (l : list A) :
  withKey key k (sort cmp l) = withKey key k l.
Proof.
  induction l as [|x l IH]; simpl; [reflexivity|].
  rewrite insert_withKey. unfold withKey in *. simpl. now rewrite IH.
Qed.

End SortFacts.

(* ===================================================================== *)
(** * SuggestedTask *)
(* ===================================================================== *)

Module SuggestedTaskFacts.
Import SuggestedTask.

Lemma fold_easier_snoc (rest : list Task) (x y : Task) :
  fold_left easier (rest ++ [y]) x = easier (fold_left easier rest x) y.
Proof. now rewrite fold_left_app. Qed.

(** The reduction of [x :: rest] with [easier] stops at the first task of
    least difficulty: everything before it is strictly harder, nothing after
    it is easier. *)
Lemma fold_easier_first_min (rest : list Task) (x : Task) :
  exists l1 l2,
    x :: rest = l1 ++ fold_left easier rest x :: l2 /\
    (forall u, In u l1 -> difficulty (fold_left easier rest x) < difficulty u) /\
    (forall u, In u l2 -> difficulty (fold_left easier rest x) <= difficulty u).
Proof.
  induction rest as [|y rest IH] using rev_ind.
  - exists [], []. simpl. split; [reflexivity|]. split; intros u [].
  - rewrite fold_easier_snoc.
    destruct IH as (l1 & l2 & E & H1 & H2).
    set (m := fold_left easier rest x) in *.
    unfold easier. destruct (Z.ltb_spec (difficulty y) (difficulty m)) as [Hlt|Hge].
    + exists (x :: rest), []. split; [|split].
      * reflexivity.
      * intros u Hu. rewrite E in Hu. apply in_app_or in Hu.
        destruct Hu as [Hu|[<-|Hu]].
        -- specialize (H1 u Hu). lia.
        -- assumption.
        -- specialize (H2 u Hu). lia.
      * intros u [].
    + exists l1, (l2 ++ [y]). split; [|split].
      * rewrite app_comm_cons, E, <- app_assoc. reflexivity.
      * assumption.
      * intros u Hu. apply in_app_or in Hu.
        destruct Hu as [Hu|[<-|[]]]; [now apply H2 | assumption].
Qed.

Lemma is_easy_spec (t : Task) : is_easy t = true <-> difficulty t <= 3.
Proof. unfold is_easy. apply Z.leb_le. Qed.

Lemma is_hard_spec (t : Task) : is_hard t = true <-> 4 <= difficulty t.
Proof. unfold is_hard. apply Z.leb_le. Qed.

Lemma is_medium_spec (t : Task) : is_medium t = true <-> priority t = medium.
Proof. apply Priority_eqb_eq. Qed.

Lemma is_high_spec (t : Task) : is_high t = true <-> priority t = high.
Proof. apply Priority_eqb_eq. Qed.

(** The low branch, when some task is easy. *)
Lemma low_some (mood : Z) (tasks : list Task) :
  mood <= 2 ->
  (exists u, In u tasks /\ difficulty u <= 3) ->
  exists t l1 l2,
    fetchSuggestedTask mood tasks = Ok (Some t) /\
    tasks = l1 ++ t :: l2 /\
    difficulty t <= 3 /\
    (forall u, In u l1 -> difficulty u <= 3 -> difficulty t < difficulty u) /\
    (forall u, In u l2 -> difficulty u <= 3 -> difficulty t <= difficulty u).
Proof.
  intros Hm (u & Hu & Du).
  unfold fetchSuggestedTask.
  destruct tasks as [|t0 tasks0] eqn:Et; [destruct Hu|]. rewrite <- Et in *.
  replace (List.length tasks =? 0)%nat with false by (now rewrite Et).
  apply Z.leb_le in Hm. rewrite Hm.
  destruct (filter is_easy tasks) as [|x rest] eqn:Ef.
  - exfalso. rewrite (filter_nil_iff is_easy) in Ef.
    apply is_easy_spec in Du. rewrite (Ef u Hu) in Du. discriminate.
  - cbn [List.length Nat.ltb Nat.leb reduce bind].
    destruct (fold_easier_first_min rest x) as (l1 & l2 & E & H1 & H2).
    set (m := fold_left easier rest x) in *.
    rewrite E in Ef.
    destruct (filter_split is_easy _ _ _ _ Ef) as (m1 & m2 & Etasks & E1 & E2).
    exists m, m1, m2. split; [reflexivity|]. split; [assumption|].
    split; [|split].
    + apply is_easy_spec.
      assert (In m (filter is_easy tasks)) as Hin
        by (rewrite Ef; apply in_elt).
      now apply filter_In in Hin.
    + intros v Hv Dv. apply H1. rewrite <- E1. apply filter_In.
      split; [assumption | now apply is_easy_spec].
    + intros v Hv Dv. apply H2. rewrite <- E2. apply filter_In.
      split; [assumption | now apply is_easy_spec].
Qed.

(** The low branch, when no task is easy. *)
Lemma low_none (mood : Z) (tasks : list Task) :
  mood <= 2 ->
  (forall u, In u tasks -> 3 < difficulty u) ->
  fetchSuggestedTask mood tasks = Ok None.
Proof.
  intros Hm Hall. unfold fetchSuggestedTask.
  destruct (List.length tasks =? 0)%nat; [reflexivity|].
  apply Z.leb_le in Hm. rewrite Hm.
  replace (filter is_easy tasks) with (@nil Task); [reflexivity|].
  symmetry. apply filter_nil_iff. intros a Ha.
  unfold is_easy. apply Z.leb_gt. now apply Hall.
Qed.

(** C5. For a mood of at most 2 the suggestion is the task of least
    difficulty among the tasks of difficulty at most 3, the first such task
    in input order on a tie; when no task has difficulty at most 3 there is
    no suggestion, whatever other tasks exist. *)
Theorem low_mood_suggests_first_easiest (mood : Z) (tasks : list Task) :
  mood <= 2 ->
  ((exists u, In u tasks /\ difficulty u <= 3) ->
   exists t l1 l2,
     fetchSuggestedTask mood tasks = Ok (Some t) /\
     tasks = l1 ++ t :: l2 /\
     difficulty t <= 3 /\
     (forall u, In u l1 -> difficulty u <= 3 -> difficulty t < difficulty u) /\
     (forall u, In u l2 -> difficulty u <= 3 -> difficulty t <= difficulty u))
  /\
  ((forall u, In u tasks -> 3 < difficulty u) ->
   fetchSuggestedTask mood tasks = Ok None).
Proof.
  intros Hm. split.
  - now apply low_some.
  - now apply low_none.
Qed.

Lemma low_mood_suggests_first_easiest_witness :
  (exists t l1 l2,
     fetchSuggestedTask 1 [Sample.report; Sample.taxes; Sample.chore; Sample.laundry]
       = Ok (Some t) /\
     [Sample.report; Sample.taxes; Sample.chore; Sample.laundry] = l1 ++ t :: l2 /\
     difficulty t <= 3 /\
     (forall u, In u l1 -> difficulty u <= 3 -> difficulty t < difficulty u) /\
     (forall u, In u l2 -> difficulty u <= 3 -> difficulty t <= difficulty u))
  /\ fetchSuggestedTask 2 [Sample.report; Sample.thesis] = Ok None.
Proof.
  split.
  - apply (low_mood_suggests_first_easiest 1); [lia|].
    exists Sample.chore. simpl. split; [tauto | lia].
  - apply (low_mood_suggests_first_easiest 2); [lia|].
    simpl. intros u [<-|[<-|[]]]; simpl; lia.
Defined.

(** The neutral branch. *)
Lemma neutral_medium (tasks : list Task) (t : Task) :
  First (fun u => priority u = medium) t tasks ->
  fetchSuggestedTask 3 tasks = Ok (Some t).
Proof.
  intros HF.
  apply (First_ext _ (fun u => is_medium u = true)) in HF;
    [| intros a; symmetry; apply is_medium_spec].
  pose proof HF as (l1 & l2 & E & _).
  destruct (First_filter_head _ _ _ HF) as (rest & Ef).
  unfold fetchSuggestedTask.
  replace (List.length tasks =? 0)%nat with false
    by (rewrite E; now destruct l1).
  simpl. now rewrite Ef.
Qed.

Lemma neutral_fallback (first : Task) (rest : list Task) :
  (forall u, In u (first :: rest) -> priority u <> medium) ->
  fetchSuggestedTask 3 (first :: rest) = Ok (Some first).
Proof.
  intros Hall. unfold fetchSuggestedTask.
  replace (filter is_medium (first :: rest)) with (@nil Task); [reflexivity|].
  symmetry. apply filter_nil_iff. intros a Ha.
  apply Priority_eqb_neq. now apply Hall.
Qed.

(** C6. For mood 3 and a non-empty list the suggestion is the first task of
    medium priority, and the first task of the list when no task has medium
    priority. *)
Theorem neutral_mood_suggests_first_medium (first : Task) (rest : list Task) :
  (forall t, First (fun u => priority u = medium) t (first :: rest) ->
             fetchSuggestedTask 3 (first :: rest) = Ok (Some t))
  /\
  ((forall u, In u (first :: rest) -> priority u <> medium) ->
   fetchSuggestedTask 3 (first :: rest) = Ok (Some first)).
Proof.
  split.
  - intros t. apply neutral_medium.
  - apply neutral_fallback.
Qed.

Lemma neutral_mood_suggests_first_medium_witness :
  fetchSuggestedTask 3 [Sample.taxes; Sample.email; Sample.thesis] = Ok (Some Sample.email)
  /\ fetchSuggestedTask 3 [Sample.taxes; Sample.chore] = Ok (Some Sample.taxes).
Proof.
  split.
  - apply (neutral_mood_suggests_first_medium Sample.taxes [Sample.email; Sample.thesis]).
    exists [Sample.taxes], [Sample.thesis].
    split; [reflexivity|]. split; [reflexivity|].
    intros y [<-|[]]. discriminate.
  - apply (neutral_mood_suggests_first_medium Sample.taxes [Sample.chore]).
    intros u [<-|[<-|[]]]; discriminate.
Defined.

(** ** The high branch *)

Lemma high_branch (mood : Z) (tasks : list Task) :
  3 < mood ->
  fetchSuggestedTask mood tasks =
  Ok (match filter is_hard tasks with
      | [] =>
          match filter is_high tasks with
          | t :: _ => Some t
          | [] => hd_error tasks
          end
      | _ :: _ =>
          match filter (fun u => is_hard u && is_high u) tasks with
          | t :: _ => Some t
          | [] => hd_error tasks
          end
      end).
Proof.
  intros Hm. unfold fetchSuggestedTask.
  replace (mood <=? 2) with false by (symmetry; apply Z.leb_gt; lia).
  replace (mood =? 3) with false by (symmetry; apply Z.eqb_neq; lia).
  destruct tasks as [|t0 tasks0] eqn:Et; [reflexivity|]. rewrite <- Et.
  replace (List.length tasks =? 0)%nat with false by (now rewrite Et).
  rewrite filter_filter_andb.
  destruct (filter is_hard tasks) as [|h hs]; cbn [List.length Nat.ltb Nat.leb].
  - destruct (filter is_high tasks); [|reflexivity].
    rewrite Et. reflexivity.
  - destruct (filter (fun a => is_hard a && is_high a) tasks); [|reflexivity].
    rewrite Et. reflexivity.
Qed.

Lemma hard_and_high_spec (t : Task) :
  is_hard t && is_high t = true <-> 4 <= difficulty t /\ priority t = high.
Proof.
  rewrite andb_true_iff, is_hard_spec, is_high_spec. reflexivity.
Qed.

(** A hard task of high priority is suggested whenever there is one. *)
Lemma high_hard_high (mood : Z) (tasks : list Task) (t : Task) :
  3 < mood ->
  First (fun u => 4 <= difficulty u /\ priority u = high) t tasks ->
  fetchSuggestedTask mood tasks = Ok (Some t).
Proof.
  intros Hm HF. rewrite high_branch by assumption.
  apply (First_ext _ (fun u => is_hard u && is_high u = true)) in HF;
    [| intros a; symmetry; apply hard_and_high_spec].
  destruct (First_filter_head _ _ _ HF) as (rest & Ef). rewrite Ef.
  destruct (filter is_hard tasks) as [|h hs] eqn:Eh; [|reflexivity].
  exfalso. destruct HF as (l1 & l2 & E & Ht & _).
  apply andb_true_iff in Ht. destruct Ht as [Ht _].
  rewrite (filter_nil_iff is_hard) in Eh.
  rewrite (Eh t) in Ht; [discriminate|]. rewrite E. apply in_elt.
Qed.

(** Without any hard task, the first task of high priority is suggested. *)
Lemma high_no_hard (mood : Z) (tasks : list Task) (t : Task) :
  3 < mood ->
  (forall u, In u tasks -> difficulty u < 4) ->
  First (fun u => priority u = high) t tasks ->
  fetchSuggestedTask mood tasks = Ok (Some t).
Proof.
  intros Hm Hno HF. rewrite high_branch by assumption.
  replace (filter is_hard tasks) with (@nil Task).
  - apply (First_ext _ (fun u => is_high u = true)) in HF;
      [| intros a; symmetry; apply is_high_spec].
    destruct (First_filter_head _ _ _ HF) as (rest & Ef). now rewrite Ef.
  - symmetry. apply filter_nil_iff. intros a Ha.
    unfold is_hard. apply Z.leb_gt. now apply Hno.
Qed.

(** With hard tasks of which none has high priority, the first task of the
    list is suggested, whether or not the list holds a task of high
    priority. *)
Lemma high_hard_not_high (mood : Z) (first : Task) (rest : list Task) :
  3 < mood ->
  (exists u, In u (first :: rest) /\ 4 <= difficulty u) ->
  (forall u, In u (first :: rest) -> ~ (4 <= difficulty u /\ priority u = high)) ->
  fetchSuggestedTask mood (first :: rest) = Ok (Some first).
Proof.
  intros Hm (u & Hu & Du) Hno. rewrite high_branch by assumption.
  destruct (filter is_hard (first :: rest)) as [|h hs] eqn:Eh.
  - exfalso. rewrite (filter_nil_iff is_hard) in Eh.
    apply is_hard_spec in Du. rewrite (Eh u Hu) in Du. discriminate.
  - replace (filter (fun a => is_hard a && is_high a) (first :: rest))
      with (@nil Task); [reflexivity|].
    symmetry. apply filter_nil_iff. intros a Ha.
    apply not_true_is_false. rewrite hard_and_high_spec. now apply Hno.
Qed.

(** The code agrees with the rule of the specification unless the list has
    hard tasks of which none has high priority. *)
Lemma high_agrees_with_spec (mood : Z) (tasks : list Task) :
  3 < mood ->
  (forall u, In u tasks -> difficulty u < 4) \/
  (exists u, In u tasks /\ 4 <= difficulty u /\ priority u = high) ->
  fetchSuggestedTask mood tasks = Ok (spec_high tasks).
Proof.
  intros Hm Hcase. rewrite high_branch by assumption. unfold spec_high.
  assert (forall (f : Task -> bool) l,
             find f l = match filter f l with t :: _ => Some t | [] => None end)
    as find_filter.
  { intros f l. induction l as [|a l IH]; simpl; [reflexivity|].
    destruct (f a); [reflexivity | assumption]. }
  rewrite !find_filter.
  destruct Hcase as [Hno | (u & Hu & Du & Pu)].
  - replace (filter is_hard tasks) with (@nil Task).
    + replace (filter (fun t => is_hard t && is_high t) tasks) with (@nil Task).
      * now destruct (filter is_high tasks).
      * symmetry. apply filter_nil_iff. intros a Ha.
        apply andb_false_iff. left. apply Z.leb_gt. now apply Hno.
    + symmetry. apply filter_nil_iff. intros a Ha.
      apply Z.leb_gt. now apply Hno.
  - destruct (filter (fun t => is_hard t && is_high t) tasks) as [|x xs] eqn:Ehh.
    + exfalso. rewrite (filter_nil_iff _) in Ehh.
      specialize (Ehh u Hu). rewrite (proj2 (hard_and_high_spec u)) in Ehh; auto.
      discriminate.
    + destruct (filter is_hard tasks) as [|h hs] eqn:Eh; [|reflexivity].
      exfalso. rewrite (filter_nil_iff is_hard) in Eh.
      apply is_hard_spec in Du. rewrite (Eh u Hu) in Du. discriminate.
Qed.

(** C1. The chain "first hard task of high priority, else first task of high
    priority, else first task" is not what the high branch computes when the
    list has hard tasks but no hard task of high priority: with a low
    priority task of difficulty 1, a medium priority task of difficulty 5
    and a high priority task of difficulty 2, in this order, no task is both
    hard and of high priority, the third task is the first of high priority,
    and the code suggests the first task. *)
Theorem high_mood_skips_high_priority_fallback :
  Forall (fun t => ~ (4 <= difficulty t /\ priority t = high))
         [Sample.chore; Sample.thesis; Sample.taxes] /\
  First (fun u => priority u = high) Sample.taxes
        [Sample.chore; Sample.thesis; Sample.taxes] /\
  spec_high [Sample.chore; Sample.thesis; Sample.taxes] = Some Sample.taxes /\
  fetchSuggestedTask 4 [Sample.chore; Sample.thesis; Sample.taxes]
    = Ok (Some Sample.chore) /\
  Sample.chore <> Sample.taxes.
Proof.
  split; [|split; [|split; [|split]]].
  - repeat constructor; simpl; intros [Hd Hp]; try discriminate; lia.
  - exists [Sample.chore; Sample.thesis], [].
    split; [reflexivity|]. split; [reflexivity|].
    intros y [<-|[<-|[]]]; discriminate.
  - reflexivity.
  - reflexivity.
  - discriminate.
Qed.

(** ** The dispatch on the mood *)

Lemma fetchSuggestedTask_low (mood : Z) (tasks : list Task) :
  mood <= 2 -> fetchSuggestedTask mood tasks = fetchSuggestedTask 1 tasks.
Proof.
  intros Hm. unfold fetchSuggestedTask.
  apply Z.leb_le in Hm. now rewrite Hm.
Qed.

Lemma fetchSuggestedTask_high (mood : Z) (tasks : list Task) :
  3 < mood -> fetchSuggestedTask mood tasks = fetchSuggestedTask 5 tasks.
Proof.
  intros Hm. rewrite (high_branch mood), (high_branch 5) by lia. reflexivity.
Qed.

Lemma fetchSuggestedTask_returns (mood : Z) (tasks : list Task) :
  exists suggested, fetchSuggestedTask mood tasks = Ok suggested.
Proof.
  unfold fetchSuggestedTask.
  destruct (List.length tasks =? 0)%nat; [eauto|].
  destruct (mood <=? 2).
  - destruct (filter is_easy tasks); simpl; eauto.
  - destruct (mood =? 3); eauto.
Qed.

(** The component calls [fetchSuggestedTask] for a truthy mood only: with
    no mood, or the mood 0, the suggestion is reset and the dispatch is not
    reached. *)
Lemma onMoodChange_truthy (m : Z) (tasks : list Task) :
  m <> 0 -> onMoodChange (Some m) tasks = fetchSuggestedTask m tasks.
Proof.
  intros Hm. unfold onMoodChange, truthy.
  now replace (m =? 0) with false by (symmetry; now apply Z.eqb_neq).
Qed.

Lemma onMoodChange_falsy (tasks : list Task) :
  onMoodChange None tasks = Ok None /\ onMoodChange (Some 0) tasks = Ok None.
Proof. split; reflexivity. Qed.

(** C10. The component accepts every integer mood and never throws.  The
    mood 0 counts as no mood: the suggestion is reset and the dispatch is
    not reached.  Every other mood of at most 2, the negative moods
    included, gets the suggestion of the low band, the same as mood 1: the
    first task of least difficulty among those of difficulty at most 3, and
    none when there is no such task.  Mood 3 gets that of the neutral band:
    the first task of medium priority, else the first task.  Every other
    mood, those above 5 included, gets that of the high band, the same as
    mood 4: the first hard task of high priority when there is one and, when
    no task is hard, the first task of high priority, else the first task. *)
Theorem mood_dispatch_total (mood : Z) (tasks : list Task) :
  (exists suggested, onMoodChange (Some mood) tasks = Ok suggested) /\
  (mood = 0 -> onMoodChange (Some mood) tasks = Ok None) /\
  (mood <> 0 -> mood <= 2 ->
   onMoodChange (Some mood) tasks = onMoodChange (Some 1) tasks /\
   ((exists u, In u tasks /\ difficulty u <= 3) ->
    exists t l1 l2,
      onMoodChange (Some mood) tasks = Ok (Some t) /\
      tasks = l1 ++ t :: l2 /\
      difficulty t <= 3 /\
      (forall u, In u l1 -> difficulty u <= 3 -> difficulty t < difficulty u) /\
      (forall u, In u l2 -> difficulty u <= 3 -> difficulty t <= difficulty u)) /\
   ((forall u, In u tasks -> 3 < difficulty u) ->
    onMoodChange (Some mood) tasks = Ok None)) /\
  (mood = 3 ->
   (forall t, First (fun u => priority u = medium) t tasks ->
              onMoodChange (Some mood) tasks = Ok (Some t)) /\
   (forall first rest,
       tasks = first :: rest ->
       (forall u, In u tasks -> priority u <> medium) ->
       onMoodChange (Some mood) tasks = Ok (Some first))) /\
  (3 < mood ->
   onMoodChange (Some mood) tasks = onMoodChange (Some 4) tasks /\
   (forall t, First (fun u => 4 <= difficulty u /\ priority u = high) t tasks ->
              onMoodChange (Some mood) tasks = Ok (Some t)) /\
   (forall t, (forall u, In u tasks -> difficulty u < 4) ->
              First (fun u => priority u = high) t tasks ->
              onMoodChange (Some mood) tasks = Ok (Some t)) /\
   (forall first rest,
       tasks = first :: rest ->
       (forall u, In u tasks -> difficulty u < 4) ->
       (forall u, In u tasks -> priority u <> high) ->
       onMoodChange (Some mood) tasks = Ok (Some first))).
Proof.
  split; [|split; [|split; [|split]]].
  - destruct (Z.eq_dec mood 0) as [->|Hm]; [now exists None|].
    rewrite onMoodChange_truthy by assumption. apply fetchSuggestedTask_returns.
  - intros ->. apply onMoodChange_falsy.
  - intros H0 Hm. rewrite !onMoodChange_truthy by lia.
    split; [now apply fetchSuggestedTask_low|].
    split; [now apply low_some | now apply low_none].
  - intros ->. rewrite onMoodChange_truthy by lia. split.
    + intros t. apply neutral_medium.
    + intros first rest -> Hall. now apply neutral_fallback.
  - intros Hm. rewrite !onMoodChange_truthy by lia.
    split; [|split; [|split]].
    + now rewrite (fetchSuggestedTask_high mood), (fetchSuggestedTask_high 4) by lia.
    + intros t. now apply high_hard_high.
    + intros t. now apply high_no_hard.
    + intros first rest -> Hno Hnot.
      rewrite high_agrees_with_spec by (try assumption; now left).
      unfold spec_high.
      assert (forall f : Task -> bool,
                 (forall u, In u (first :: rest) -> f u = false) ->
                 find f (first :: rest) = None) as Hfind.
      { intros f Hf. destruct (find f (first :: rest)) as [x|] eqn:E;
          [|reflexivity].
        apply find_some in E. destruct E as [Hin Hx].
        rewrite (Hf x Hin) in Hx. discriminate. }
      rewrite !Hfind; [reflexivity| |].
      * intros u Hu. apply Priority_eqb_neq. now apply Hnot.
      * intros u Hu. apply andb_false_iff. left. apply Z.leb_gt.
        now apply Hno.
Qed.

Lemma mood_dispatch_total_witness :
  onMoodChange (Some (-4)) [Sample.report; Sample.laundry; Sample.chore]
  = Ok (Some Sample.chore) /\
  onMoodChange (Some 9) [Sample.chore; Sample.laundry]
  = onMoodChange (Some 4) [Sample.chore; Sample.laundry].
Proof.
  split.
  - destruct (mood_dispatch_total (-4)
                [Sample.report; Sample.laundry; Sample.chore])
      as (_ & _ & Hlow & _).
    assert (-4 <> 0) as H0 by lia.
    assert (-4 <= 2) as H2 by lia.
    destruct (Hlow H0 H2) as (_ & Hsome & _).
    assert (exists u, In u [Sample.report; Sample.laundry; Sample.chore] /\
                      difficulty u <= 3) as Hex
      by (exists Sample.chore; simpl; split; [tauto | lia]).
    destruct (Hsome Hex) as (t & l1 & l2 & E & _).
    rewrite E. vm_compute in E. injection E as <-. reflexivity.
  - destruct (mood_dispatch_total 9 [Sample.chore; Sample.laundry])
      as (_ & _ & _ & _ & Hhigh).
    assert (3 < 9) as H9 by lia.
    exact (proj1 (Hhigh H9)).
Defined.

(** Against the wording of C10.  The mood 0 does not select the low band:
    with one task of difficulty 2 the low band suggests that task, as the
    moods 1 and -1 do, and the mood 0 leaves no suggestion, the card of the
    component asking to select a mood. *)
Lemma mood_zero_is_no_mood :
  fetchSuggestedTask 1 [Sample.laundry] = Ok (Some Sample.laundry) /\
  onMoodChange (Some 1) [Sample.laundry] = Ok (Some Sample.laundry) /\
  onMoodChange (Some (-1)) [Sample.laundry] = Ok (Some Sample.laundry) /\
  onMoodChange (Some 0) [Sample.laundry] = Ok None /\
  SuggestedTaskComponent.effect (Some 0)
    {| SuggestedTaskComponent.user := Some "u1"%string;
       SuggestedTaskComponent.data := Some [Sample.laundry];
       SuggestedTaskComponent.error := None |}
    {| SuggestedTaskComponent.suggestedTask := Some Sample.laundry;
       SuggestedTaskComponent.loading := false |}
  = Ok {| SuggestedTaskComponent.suggestedTask := None;
          SuggestedTaskComponent.loading := false |} /\
  SuggestedTaskComponent.render (Some 0)
    {| SuggestedTaskComponent.suggestedTask := None;
       SuggestedTaskComponent.loading := false |}
  = SuggestedTaskComponent.SelectYourMood.
Proof. repeat split. Qed.

End SuggestedTaskFacts.

(* ===================================================================== *)
(** * TaskList *)
(* ===================================================================== *)

Module TaskListFacts.
Import TaskList.

Lemma byDifficulty_key (a b : Task) :
  byDifficulty a b <= 0 <-> difficulty a <= difficulty b.
Proof. unfold byDifficulty. lia. Qed.

Lemma byScore_key (a b : Task) :
  byScore a b <= 0 <-> - score a <= - score b.
Proof. unfold byScore. cbv zeta. lia. Qed.

Lemma Ascending_opp {A : Type} (key : A -> Z) (l : list A) :
  Ascending (fun a => - key a) l -> Descending key l.
Proof.
  unfold Ascending, Descending.
  induction 1 as [|a l Hl IH Ha]; constructor; [assumption|].
  eapply Forall_impl; [|exact Ha]. simpl. intros; lia.
Qed.

Lemma withKey_opp {A : Type} (key : A -> Z) (k : Z) (l : list A) :
  withKey (fun a => - key a) (- k) l = withKey key k l.
Proof.
  unfold withKey. apply filter_ext. intros a.
  destruct (Z.eqb_spec (key a) k), (Z.eqb_spec (- key a) (- k)); auto; lia.
Qed.

Lemma sort_byScore_Descending (l : list Task) : Descending score (sort byScore l).
Proof.
  apply Ascending_opp. apply (sort_Ascending byScore). apply byScore_key.
Qed.

Lemma sort_byScore_stable (s : Z) (l : list Task) :
  withKey score s (sort byScore l) = withKey score s l.
Proof.
  rewrite <- !(withKey_opp score).
  apply (sort_stable byScore). apply byScore_key.
Qed.

Lemma sortTasksByMood_low (tasks : list Task) (mood : Z) :
  mood <= 2 ->
  sortTasksByMood tasks mood =
  sort byDifficulty
    (filter (fun t => difficulty t <=? 3)
       (filter (fun t => negb (completed t)) tasks)).
Proof.
  intros Hm. unfold sortTasksByMood. apply Z.leb_le in Hm. now rewrite Hm.
Qed.

Lemma sortTasksByMood_other (tasks : list Task) (mood : Z) :
  3 <= mood ->
  sortTasksByMood tasks mood =
  sort byScore (filter (fun t => negb (completed t)) tasks).
Proof.
  intros Hm. unfold sortTasksByMood.
  replace (mood <=? 2) with false by (symmetry; apply Z.leb_gt; lia).
  now destruct (mood =? 3).
Qed.

(** C7. For mood 1 or 2 the ranked list holds exactly the incomplete tasks
    of difficulty at most 3 (harder tasks and completed tasks are left out)
    in ascending order of difficulty. *)
Theorem low_mood_list_easy_ascending (tasks : list Task) (mood : Z) :
  mood = 1 \/ mood = 2 ->
  Permutation (sortTasksByMood tasks mood)
    (filter (fun t => negb (completed t) && (difficulty t <=? 3)) tasks) /\
  (forall t, In t (sortTasksByMood tasks mood) <->
             In t tasks /\ completed t = false /\ difficulty t <= 3) /\
  Ascending difficulty (sortTasksByMood tasks mood).
Proof.
  intros Hm. rewrite sortTasksByMood_low by lia.
  split; [|split].
  - rewrite sort_perm. now rewrite filter_filter_andb.
  - intros t. rewrite sort_In, !filter_In, negb_true_iff, Z.leb_le. tauto.
  - apply (sort_Ascending byDifficulty). apply byDifficulty_key.
Qed.

Lemma low_mood_list_easy_ascending_witness :
  Permutation
    (sortTasksByMood
       [Sample.report; Sample.taxes; Sample.archived; Sample.chore; Sample.thesis] 2)
    [Sample.taxes; Sample.chore] /\
  Ascending difficulty
    (sortTasksByMood
       [Sample.report; Sample.taxes; Sample.archived; Sample.chore; Sample.thesis] 2).
Proof.
  pose proof (low_mood_list_easy_ascending
    [Sample.report; Sample.taxes; Sample.archived; Sample.chore; Sample.thesis] 2
    (or_intror eq_refl)) as (HP & _ & HA).
  split; [exact HP | exact HA].
Defined.

(** C8. For mood 3 and for every mood from 4 on, the ranked list has as
    many tasks as there are incomplete tasks (it is a rearrangement of
    them), in descending order of the score
    [priorityWeight(priority) * 10 + difficulty] with weights 3, 2 and 1 for
    high, medium and low; tasks of equal score keep their input order. *)
Theorem other_mood_list_score_descending (tasks : list Task) (mood : Z) :
  mood = 3 \/ 4 <= mood ->
  List.length (sortTasksByMood tasks mood)
    = List.length (filter (fun t => negb (completed t)) tasks) /\
  Permutation (sortTasksByMood tasks mood)
    (filter (fun t => negb (completed t)) tasks) /\
  Descending score (sortTasksByMood tasks mood) /\
  (forall s, withKey score s (sortTasksByMood tasks mood)
             = withKey score s (filter (fun t => negb (completed t)) tasks)) /\
  (forall t, score t = priorityWeight (priority t) * 10 + difficulty t) /\
  priorityWeight high = 3 /\ priorityWeight medium = 2 /\ priorityWeight low = 1.
Proof.
  intros Hm. rewrite sortTasksByMood_other by lia.
  split; [apply sort_length|].
  split; [apply sort_perm|].
  split; [apply sort_byScore_Descending|].
  split; [intros s; apply sort_byScore_stable|].
  repeat split.
Qed.

Lemma other_mood_list_score_descending_witness :
  sortTasksByMood
    [Sample.email; Sample.archived; Sample.chore; Sample.taxes; Sample.call;
     Sample.report] 3
  = [Sample.report; Sample.taxes; Sample.email; Sample.call; Sample.chore] /\
  sortTasksByMood
    [Sample.call; Sample.archived; Sample.chore; Sample.taxes; Sample.email;
     Sample.report] 3
  = [Sample.report; Sample.taxes; Sample.call; Sample.email; Sample.chore] /\
  Descending score
    (sortTasksByMood
       [Sample.email; Sample.archived; Sample.chore; Sample.taxes; Sample.call;
        Sample.report] 3) /\
  withKey score 22
    (sortTasksByMood
       [Sample.email; Sample.archived; Sample.chore; Sample.taxes; Sample.call;
        Sample.report] 7)
  = [Sample.email; Sample.call].
Proof.
  split; [reflexivity|]. split; [reflexivity|]. split.
  - apply (other_mood_list_score_descending _ 3). now left.
  - assert (7 = 3 \/ 4 <= 7) as Hmood by (right; lia).
    destruct (other_mood_list_score_descending
                [Sample.email; Sample.archived; Sample.chore; Sample.taxes;
                 Sample.call; Sample.report] 7 Hmood)
      as (_ & _ & _ & Hstable & _).
    rewrite Hstable. reflexivity.
Defined.

End TaskListFacts.

(* ===================================================================== *)
(** * calculate-travel *)
(* ===================================================================== *)

Module CalculateTravelFacts.
Import CalculateTravel CalculateTravelSpec.

(** ** The chain of instants *)






(** The same order for a profile as stored, where a missing duration counts
    as zero. *)
Lemma schedule_monotone_profile (profile : Profile) (eventStart travelSeconds : Z) :
  0 <= travelSeconds ->
  0 <= num (travel_buffer_time profile) ->
  0 <= num (getting_ready_time profile) ->
  0 <= num (cooking_time profile) ->
  0 <= num (wake_up_margin profile) ->
  wakeUpTime (schedule profile eventStart travelSeconds)
    <= cookStartTime (schedule profile eventStart travelSeconds) /\
  cookStartTime (schedule profile eventStart travelSeconds)
    <= getReadyTime (schedule profile eventStart travelSeconds) /\
  getReadyTime (schedule profile eventStart travelSeconds)
    <= leaveTime (schedule profile eventStart travelSeconds) /\
  leaveTime (schedule profile eventStart travelSeconds) <= eventStart.
Proof. intros. unfold schedule. simpl. lia. Qed.

(** ** The loop over the events *)

Lemma routingFails_routing (env : Env) (event : CalendarEvent) :
  routingFails env event -> routing env event = None.
Proof.
  unfold routing. intros [(e & ->) | (data & -> & [Hs | Hr])].
  - reflexivity.
  - now apply String.eqb_neq in Hs as ->.
  - rewrite Hr. now destruct (status data =? "OK")%string.
Qed.

Lemma timeClip_spec (t : Z) :
  (inDateRange t -> Date.timeClip t = Some t) /\
  (~ inDateRange t -> Date.timeClip t = None).
Proof.
  unfold Date.timeClip, inDateRange.
  destruct (Z.leb_spec (Z.abs t) Date.maxTime); split; intros; try reflexivity; lia.
Qed.

Lemma leaveTime_leaveAt (profile : Profile) (event : CalendarEvent) (s : Z) :
  leaveTime (schedule profile (start_time event) s) = leaveAt profile event s.
Proof. reflexivity. Qed.

(** The leave [Date] is valid exactly when the event start and the leave
    time are instants a [Date] can hold. *)
Lemma leaveDate_valid (profile : Profile) (event : CalendarEvent) (s : Z) :
  inDateRange (start_time event) -> inDateRange (leaveAt profile event s) ->
  leaveDate profile event s = Some (leaveAt profile event s).
Proof.
  intros Hs Hl. unfold leaveDate.
  rewrite (proj1 (timeClip_spec _) Hs), leaveTime_leaveAt.
  exact (proj1 (timeClip_spec _) Hl).
Qed.

Lemma leaveDate_invalid (profile : Profile) (event : CalendarEvent) (s : Z) :
  ~ (inDateRange (start_time event) /\ inDateRange (leaveAt profile event s)) ->
  leaveDate profile event s = None.
Proof.
  intros Hno. unfold leaveDate.
  destruct (Date.timeClip (start_time event)) as [t|] eqn:Es; [|reflexivity].
  assert (inDateRange (start_time event)) as Hs.
  { unfold Date.timeClip in Es. unfold inDateRange.
    destruct (Z.leb_spec (Z.abs (start_time event)) Date.maxTime);
      [lia | discriminate]. }
  rewrite (proj1 (timeClip_spec _) Hs) in Es. injection Es as <-.
  rewrite leaveTime_leaveAt. apply timeClip_spec. tauto.
Qed.

(** What the turn of an event ends with. *)
Lemma computed_valid (env : Env) (profile : Profile) (e : CalendarEvent) (s : Z) :
  routing env e = Some s ->
  inDateRange (start_time e) -> inDateRange (leaveAt profile e s) ->
  computed env profile e
  = Some {| Update.id := id e;
            Update.travel_time_seconds := s;
            Update.recommended_leave_time :=
              Date.toISOString (leaveAt profile e s) |}.
Proof.
  intros Hr Hs Hl. unfold computed, updateFor.
  now rewrite Hr, leaveDate_valid.
Qed.

Lemma computed_invalid (env : Env) (profile : Profile) (e : CalendarEvent) (s : Z) :
  routing env e = Some s ->
  ~ (inDateRange (start_time e) /\ inDateRange (leaveAt profile e s)) ->
  computed env profile e = None.
Proof.
  intros Hr Hno. unfold computed, updateFor.
  now rewrite Hr, leaveDate_invalid.
Qed.

Lemma routingFails_computed (env : Env) (profile : Profile) (e : CalendarEvent) :
  routingFails env e -> computed env profile e = None.
Proof. intros H. unfold computed. now rewrite routingFails_routing. Qed.

Lemma computed_id (env : Env) (profile : Profile) (e : CalendarEvent)
    (u : Update.t) :
  computed env profile e = Some u -> Update.id u = id e.
Proof.
  unfold computed, updateFor. destruct (routing env e) as [s|]; [|discriminate].
  destruct (leaveDate profile e s); [|discriminate].
  now intros [= <-].
Qed.

(** One turn of the loop: the [try] block with its [catch]. *)
Lemma tryEvent_caught (env : Env) (profile : Profile) (event : CalendarEvent)
    (updates : list Update.t) :
  try_catch (tryEvent env profile event updates) (fun _ => updates)
  = updates ++ pushed env profile event.
Proof.
  unfold tryEvent, pushed, computed, routing, updateFor.
  destruct (directions env event) as [[st rs] | e]; simpl;
    [| now rewrite app_nil_r].
  destruct (st =? "OK")%string; simpl; [| now rewrite app_nil_r].
  destruct rs as [|[[|leg lgs]] rs]; simpl; try now rewrite app_nil_r.
  destruct (leaveDate profile event (duration_value leg)); simpl;
    [reflexivity | now rewrite app_nil_r].
Qed.

Lemma forEvents_pushed (env : Env) (profile : Profile)
    (events : list CalendarEvent) (updates : list Update.t) :
  forEvents env profile events updates
  = updates ++ flat_map (pushed env profile) events.
Proof.
  revert updates. induction events as [|event rest IH]; intros updates; simpl.
  - now rewrite app_nil_r.
  - rewrite IH, tryEvent_caught, <- app_assoc. reflexivity.
Qed.

Lemma pushed_length (env : Env) (profile : Profile) (events : list CalendarEvent) :
  List.length (flat_map (pushed env profile) events)
  = List.length (filter (fun e => notNull (computed env profile e)) events).
Proof.
  induction events as [|e rest IH]; simpl; [reflexivity|].
  rewrite length_app, IH. unfold pushed.
  now destruct (computed env profile e).
Qed.

(** The response and the table after an accepted request. *)
Lemma handler_accepted (env : Env) (uid : string) (profile : Profile)
    (table : list CalendarEvent) :
  accepted env uid profile ->
  handler env table
  = (Updated (List.length (flat_map (pushed env profile)
                             (selectEvents uid (now env) table))),
     writeBack env table (flat_map (pushed env profile)
                        (selectEvents uid (now env) table))).
Proof.
  intros (Hm & Ha & Hu & Hp & Hh & He).
  unfold handler, serve.
  apply String.eqb_neq in Hm. rewrite Hm, Ha. cbn [bind].
  rewrite Hu. cbn [bind]. rewrite Hp, Hh. cbn [bind]. rewrite He. cbn [bind].
  rewrite forEvents_pushed. reflexivity.
Qed.


(** ** Writing back *)


Lemma writeBack_rows (env : Env) (updates : list Update.t)
    (table : list CalendarEvent) :
  writeBack env table updates = map (rowAfter env updates) table.
Proof.
  unfold writeBack, rowAfter. revert table.
  induction updates as [|u us IH]; intros table; simpl.
  - symmetry. apply map_id.
  - rewrite IH. unfold applyUpdate.
    destruct (written env u); [now rewrite map_map | reflexivity].
Qed.

(** A row no update names is untouched. *)
Lemma rowAfter_untouched (env : Env) (updates : list Update.t) (r : CalendarEvent) :
  (forall u, In u updates -> Update.id u <> id r) -> rowAfter env updates r = r.
Proof.
  unfold rowAfter. induction updates as [|u us IH]; intros H; simpl; [reflexivity|].
  destruct (String.eqb_spec (id r) (Update.id u)) as [E|_].
  - exfalso. apply (H u); [now left | now symmetry].
  - destruct (written env u); apply IH; intros v Hv; apply H; now right.
Qed.

(** A row named by one update goes through the statement and the trigger
    once, when the statement is carried out. *)
Lemma rowAfter_once (env : Env) (u0 : Update.t) (updates : list Update.t)
    (r : CalendarEvent) :
  keepsId env ->
  NoDup (map Update.id updates) ->
  In u0 updates -> Update.id u0 = id r ->
  rowAfter env updates r
  = if written env u0 then update_updated_at_column env r (patch u0 r) else r.
Proof.
  intros Hkeep. induction updates as [|u us IH]; intros Hnd Hin Eid; [destruct Hin|].
  simpl in Hnd. apply NoDup_cons_iff in Hnd. destruct Hnd as [Hfresh Hnd].
  unfold rowAfter in *. simpl.
  destruct (String.eqb_spec (id r) (Update.id u)) as [E|N].
  - assert (u0 = u) as ->.
    { destruct Hin as [->|Hin]; [reflexivity|]. exfalso. apply Hfresh.
      rewrite <- E, <- Eid. now apply in_map. }
    destruct (written env u).
    + apply (rowAfter_untouched env). intros v Hv Ev. apply Hfresh.
      rewrite Hkeep in Ev. simpl in Ev. rewrite E in Ev. rewrite <- Ev.
      now apply in_map.
    + apply (rowAfter_untouched env). intros v Hv Ev. apply Hfresh.
      rewrite E in Ev. rewrite <- Ev. now apply in_map.
  - assert (In u0 us) as Hin'
      by (destruct Hin as [->|Hin]; [now symmetry in Eid | assumption]).
    destruct (written env u); now apply IH.
Qed.

(** The primary key: two rows of the table with the same id are one row. *)
Lemma primary_key (table : list CalendarEvent) (r e : CalendarEvent) :
  NoDup (map id table) -> In r table -> In e table -> id e = id r -> e = r.
Proof.
  induction table as [|a table IH]; simpl; intros Hnd Hr He Eid; [contradiction|].
  inversion Hnd as [|? ? Hnotin Hnd']; subst.
  destruct Hr as [<-|Hr], He as [<-|He]; auto.
  - exfalso. apply Hnotin. rewrite <- Eid. now apply in_map.
  - exfalso. apply Hnotin. rewrite Eid. now apply in_map.
Qed.

Lemma primary_key_filter (f : CalendarEvent -> bool) (table : list CalendarEvent) :
  NoDup (map id table) -> NoDup (map id (filter f table)).
Proof.
  induction table as [|a table IH]; simpl; intros Hnd; [constructor|].
  apply NoDup_cons_iff in Hnd. destruct Hnd as [Hfresh Hnd].
  destruct (f a); simpl; [|now apply IH].
  constructor; [|now apply IH].
  intros Hin. apply Hfresh. apply in_map_iff in Hin.
  destruct Hin as (x & <- & Hx). apply in_map. now apply filter_In in Hx.
Qed.

Lemma in_pushed (env : Env) (profile : Profile) (events : list CalendarEvent)
    (u : Update.t) :
  In u (flat_map (pushed env profile) events) <->
  exists e, In e events /\ computed env profile e = Some u.
Proof.
  rewrite in_flat_map. unfold pushed. split.
  - intros (e & He & Hu).
    destruct (computed env profile e) as [u'|] eqn:Hc; [|destruct Hu].
    destruct Hu as [<-|[]]. eauto.
  - intros (e & He & Hc). exists e. rewrite Hc. split; [assumption | now left].
Qed.

(** One update at most for an id. *)
Lemma pushed_ids (env : Env) (profile : Profile) (events : list CalendarEvent) :
  NoDup (map id events) ->
  NoDup (map Update.id (flat_map (pushed env profile) events)).
Proof.
  induction events as [|e rest IH]; simpl; intros Hnd; [constructor|].
  apply NoDup_cons_iff in Hnd. destruct Hnd as [Hfresh Hnd].
  rewrite map_app. unfold pushed at 1.
  destruct (computed env profile e) as [u0|] eqn:Hc; simpl; [|now apply IH].
  constructor; [|now apply IH].
  intros Hin. apply Hfresh. apply in_map_iff in Hin.
  destruct Hin as (u & Eu & Hu). apply in_pushed in Hu.
  destruct Hu as (e' & He' & Hc').
  apply computed_id in Hc, Hc'. rewrite <- Hc, <- Eu, Hc'.
  now apply in_map.
Qed.

(** The table after an accepted request, row by row. *)
Lemma handler_table (env : Env) (uid : string) (profile : Profile)
    (table : list CalendarEvent) :
  accepted env uid profile ->
  keepsId env ->
  NoDup (map id table) ->
  snd (handler env table) = map (expected env uid profile) table.
Proof.
  intros Hacc Hkeep Hnd. rewrite (handler_accepted env uid profile table Hacc). simpl.
  rewrite writeBack_rows. apply map_ext_in. intros r Hr.
  set (updates := flat_map (pushed env profile) (selectEvents uid (now env) table)).
  unfold expected.
  assert (forall u e, In e (selectEvents uid (now env) table) ->
                      computed env profile e = Some u ->
                      Update.id u = id r -> e = r)
    as Hkey.
  { intros u e He Hc Eid. apply filter_In in He. apply computed_id in Hc.
    apply (primary_key table); try tauto. congruence. }
  destruct (selects uid (now env) r) eqn:Hsel;
    [destruct (computed env profile r) as [u0|] eqn:Hcomp|].
  - apply rowAfter_once.
    + assumption.
    + apply pushed_ids. now apply primary_key_filter.
    + apply in_pushed. exists r. split; [|assumption]. apply filter_In. auto.
    + now apply computed_id in Hcomp.
  - apply rowAfter_untouched. intros u Hu Eid.
    apply in_pushed in Hu. destruct Hu as (e & He & Hc).
    assert (e = r) as -> by (eapply Hkey; eauto). congruence.
  - apply rowAfter_untouched. intros u Hu Eid.
    apply in_pushed in Hu. destruct Hu as (e & He & Hc).
    assert (e = r) as -> by (eapply Hkey; eauto).
    apply filter_In in He. destruct He as [_ He]. congruence.
Qed.

Lemma Forall2_map_r {A : Type} (R : A -> A -> Prop) (f : A -> A) (l : list A) :
  (forall a, In a l -> R a (f a)) -> Forall2 R l (map f l).
Proof.
  induction l as [|a l IH]; simpl; intros H; constructor.
  - apply H. now left.
  - apply IH. intros b Hb. apply H. now right.
Qed.




(** C4. A failure in the turn of one event does not end the batch.  Of an
    accepted request the response is the number of updates issued, one for
    each selected event whose turn ends with an update: the lookup has to
    succeed (no update when it throws or answers with a status other than
    OK, with no route or with a first route without leg) and the event start
    and the leave time have to be instants a [Date] can hold.  The row of an
    event without update is left as it was; the row of an event with an
    update holds the new values when the database carried the statement out,
    and is left as it was when it did not, which the count does not show.
    The events before and after a failing one are processed as if it were
    not there, so that when the turn of every other event ends with an
    update the count is the number of the other events (four, for five
    events of which one fails). *)
Theorem routing_failure_isolated (env : Env) (uid : string) (profile : Profile)
    (table : list CalendarEvent) :
  accepted env uid profile ->
  NoDup (map id table) ->
  keepsId env ->
  exists updates,
    handler env table
      = (Updated (List.length updates), writeBack env table updates) /\
    updates = forEvents env profile (selectEvents uid (now env) table) [] /\
    List.length updates
      = List.length (filter (fun e => notNull (computed env profile e))
                       (selectEvents uid (now env) table)) /\
    (forall u, In u updates <->
               exists e, In e (selectEvents uid (now env) table) /\
                         computed env profile e = Some u) /\
    (forall e, routingFails env e -> computed env profile e = None) /\
    (forall e others,
        directions env e
        = Ok {| status := "OK"; routes := {| legs := [] |} :: others |} ->
        computed env profile e = None) /\
    (forall e s,
        routing env e = Some s ->
        (inDateRange (start_time e) -> inDateRange (leaveAt profile e s) ->
         computed env profile e
         = Some {| Update.id := id e;
                   Update.travel_time_seconds := s;
                   Update.recommended_leave_time :=
                     Date.toISOString (leaveAt profile e s) |}) /\
        (~ (inDateRange (start_time e) /\ inDateRange (leaveAt profile e s)) ->
         computed env profile e = None)) /\
    Forall2 (fun r r' =>
               r' = if selects uid (now env) r then
                      match computed env profile r with
                      | Some update =>
                          if written env update
                          then update_updated_at_column env r (patch update r)
                          else r
                      | None => r
                      end
                    else r)
            table (snd (handler env table)) /\
    (forall before e after,
        selectEvents uid (now env) table = before ++ e :: after ->
        computed env profile e = None ->
        forEvents env profile [e] [] = [] /\
        updates = forEvents env profile (before ++ after) [] /\
        In e (snd (handler env table)) /\
        ((forall e', In e' (before ++ after) -> computed env profile e' <> None) ->
         List.length updates = List.length (before ++ after))).
Proof.
  intros Hacc Hnd Hkeep.
  exists (forEvents env profile (selectEvents uid (now env) table) []).
  rewrite !forEvents_pushed. simpl.
  split; [now apply handler_accepted|].
  split; [reflexivity|].
  split; [apply pushed_length|].
  split; [intros u; apply in_pushed|].
  split; [intros e; apply routingFails_computed|].
  split; [intros e others E; unfold computed, routing; now rewrite E|].
  split.
  { intros e s Hr. split; [now apply computed_valid | now apply computed_invalid]. }
  split.
  { rewrite (handler_table env uid profile table Hacc Hkeep Hnd).
    apply Forall2_map_r. intros r _. reflexivity. }
  intros before e after Esel Hnone.
  assert (pushed env profile e = []) as Hp
    by (unfold pushed; now rewrite Hnone).
  split; [simpl; now rewrite tryEvent_caught|].
  rewrite forEvents_pushed, Esel, !flat_map_app. simpl. rewrite Hp. simpl.
  split; [reflexivity|]. split.
  - rewrite (handler_table env uid profile table Hacc Hkeep Hnd).
    apply in_map_iff. exists e. split.
    + unfold expected. rewrite Hnone. now destruct (selects uid (now env) e).
    + assert (In e (selectEvents uid (now env) table)) as He
        by (rewrite Esel; apply in_elt).
      now apply filter_In in He.
  - intros Hall. rewrite <- flat_map_app, pushed_length.
    f_equal. apply forallb_filter_id. apply forallb_forall.
    intros e' He'. specialize (Hall e' He').
    now destruct (computed env profile e').
Qed.

Lemma routing_failure_isolated_witness :
  List.length (selectEvents "u1" (now Sample.env) Sample.table) = 5%nat /\
  routingFails Sample.env Sample.concert /\
  In Sample.concert (snd (handler Sample.env Sample.table)) /\
  exists updates,
    handler Sample.env Sample.table
      = (Updated 4, writeBack Sample.env Sample.table updates) /\
    List.length updates = 4%nat /\
    Forall (fun u => Update.id u <> id Sample.concert) updates.
Proof.
  split; [reflexivity|].
  assert (routingFails Sample.env Sample.concert) as Hfail
    by (left; eexists; reflexivity).
  split; [assumption|].
  assert (accepted Sample.env "u1" Sample.profile) as Hacc
    by (repeat split; discriminate).
  assert (NoDup (map id Sample.table)) as Hkey
    by (repeat constructor; simpl; intros H;
        repeat (destruct H as [H|H]; [discriminate|]); exact H).
  assert (keepsId Sample.env) as Hkeep by (intros old new; reflexivity).
  destruct (routing_failure_isolated Sample.env "u1" Sample.profile Sample.table
              Hacc Hkey Hkeep)
    as (updates & Hh & Hu & _ & _ & Hnone & _ & _ & _ & Hiso).
  destruct (Hiso [Sample.dinner; Sample.dentist] Sample.concert
                 [Sample.meeting; Sample.flight] eq_refl
                 (Hnone Sample.concert Hfail))
    as (_ & _ & Hrow & Hcount).
  split; [exact Hrow|].
  exists updates.
  assert (List.length updates = 4%nat) as H4.
  { apply Hcount. intros e' [<-|[<-|[<-|[<-|[]]]]]; discriminate. }
  split; [now rewrite Hh, H4|].
  split; [assumption|].
  rewrite Hu. repeat constructor; discriminate.
Defined.

(** Against the wording of C4.  Five events are selected and the routing
    lookup fails for exactly one of them, the concert: the call throws; for
    the four others it returns, with status OK and a route.  Of those four
    the dentist gets no update, because the route has no leg, and the flight
    gets none, because its leave time is not an instant a [Date] can hold
    and [toISOString] throws inside the [try]: the response counts two
    updates, not four.  One of the two, that of the meeting, carries a
    travel time the column [travel_time_seconds] cannot hold: it is counted
    and its row is left as it was. *)
Lemma one_routing_failure_of_five_counts_two :
  selectEvents "u1" (now Sample.oddEnv) Sample.table
  = [Sample.dinner; Sample.dentist; Sample.concert; Sample.meeting;
     Sample.flight] /\
  routingFails Sample.oddEnv Sample.concert /\
  Forall (fun e => exists data,
                     directions Sample.oddEnv e = Ok data /\
                     status data = "OK"%string /\ routes data <> [])
         [Sample.dinner; Sample.dentist; Sample.meeting; Sample.flight] /\
  fst (handler Sample.oddEnv Sample.table) = Updated 2 /\
  forEvents Sample.oddEnv Sample.profile [Sample.dentist] [] = [] /\
  forEvents Sample.oddEnv Sample.profile [Sample.flight] [] = [] /\
  forEvents Sample.oddEnv Sample.profile [Sample.meeting] []
  = [ {| Update.id := "e4";
         Update.travel_time_seconds := 3000000000;
         Update.recommended_leave_time := "1928-12-11T02:25:00.000Z" |} ] /\
  nth_error (snd (handler Sample.oddEnv Sample.table)) 1 = Some Sample.dentist /\
  nth_error (snd (handler Sample.oddEnv Sample.table)) 3 = Some Sample.meeting /\
  nth_error (snd (handler Sample.oddEnv Sample.table)) 4 = Some Sample.flight.
Proof.
  split; [reflexivity|].
  split; [left; eexists; reflexivity|].
  split.
  { repeat (apply Forall_cons;
            [eexists; split; [reflexivity|]; split; [reflexivity | discriminate]|]).
    apply Forall_nil. }
  repeat split; reflexivity.
Qed.




End CalculateTravelFacts.

(* ===================================================================== *)
(** * SuggestedTask: further properties *)
(* ===================================================================== *)

Module SuggestedTaskMore.
Import SuggestedTask.

Lemma index_In {A : Type} (l : list A) (i : nat) (x : A) :
  index l i = Some x -> In x l.
Proof. apply nth_error_In. Qed.

Lemma fold_easier_In (rest : list Task) (x : Task) :
  In (fold_left easier rest x) (x :: rest).
Proof.
  destruct (SuggestedTaskFacts.fold_easier_first_min rest x) as (l1 & l2 & E & _).
  rewrite E. apply in_elt.
Qed.

(** A suggestion is one of the tasks given. *)
Lemma fetch_member (mood : Z) (tasks : list Task) (t : Task) :
  fetchSuggestedTask mood tasks = Ok (Some t) -> In t tasks.
Proof.
  unfold fetchSuggestedTask.
  destruct (List.length tasks =? 0)%nat; [discriminate|].
  destruct (mood <=? 2).
  - destruct (filter is_easy tasks) as [|x rest] eqn:Ef; simpl; [discriminate|].
    intros H. injection H as <-.
    pose proof (fold_easier_In rest x) as Hin. rewrite <- Ef in Hin.
    now apply filter_In in Hin.
  - destruct (mood =? 3).
    + intros H. injection H as H.
      destruct (0 <? List.length (filter is_medium tasks))%nat.
      * apply (index_In _ 0%nat) in H. now apply filter_In in H.
      * now apply (index_In _ 0%nat) in H.
    + intros H. injection H as H.
      match type of H with
      | (if ?c then _ else _) = _ => destruct c
      end; [|now apply (index_In _ 0%nat) in H].
      apply (index_In _ 0%nat) in H.
      destruct (0 <? List.length (filter is_hard tasks))%nat.
      * apply filter_In in H. destruct H as [H _].
        now apply filter_In in H.
      * now apply filter_In in H.
Qed.

(** When there is no suggestion. *)
Lemma fetch_none_iff (mood : Z) (tasks : list Task) :
  fetchSuggestedTask mood tasks = Ok None <->
  tasks = [] \/ (mood <= 2 /\ forall u, In u tasks -> 3 < difficulty u).
Proof.
  split.
  - destruct tasks as [|first rest]; [now left|]. intros H. right.
    destruct (Z.leb_spec mood 2) as [Hm|Hm].
    + split; [assumption|]. intros u Hu.
      destruct (Z.ltb_spec 3 (difficulty u)) as [|Hd]; [assumption|]. exfalso.
      destruct (SuggestedTaskFacts.low_some mood (first :: rest) Hm)
        as (t & _ & _ & E & _); [now exists u|]. congruence.
    + exfalso. destruct (Z.eqb_spec mood 3) as [->|H3].
      * unfold fetchSuggestedTask in H.
        change (List.length (first :: rest) =? 0)%nat with false in H.
        change (3 <=? 2) with false in H. change (3 =? 3) with true in H.
        cbv iota in H.
        destruct (filter is_medium (first :: rest)); discriminate H.
      * rewrite SuggestedTaskFacts.high_branch in H by lia.
        destruct (filter is_hard (first :: rest));
          [destruct (filter is_high (first :: rest))
          |destruct (filter _ (first :: rest))]; discriminate.
  - intros [->|[Hm Hall]]; [reflexivity|].
    now apply SuggestedTaskFacts.low_none.
Qed.

(** X1. Whatever the mood, a suggestion is one of the tasks given (the
    choice never makes up a task), and there is no suggestion in two cases
    only: the list is empty, or the mood is at most 2 and every task has a
    difficulty above 3.  From mood 3 on every non-empty list has a
    suggestion. *)
Theorem suggestion_outcome (mood : Z) (tasks : list Task) :
  (forall t, fetchSuggestedTask mood tasks = Ok (Some t) -> In t tasks) /\
  (fetchSuggestedTask mood tasks = Ok None <->
   tasks = [] \/ (mood <= 2 /\ forall u, In u tasks -> 3 < difficulty u)) /\
  (2 < mood -> tasks <> [] ->
   exists t, fetchSuggestedTask mood tasks = Ok (Some t)).
Proof.
  split; [|split].
  - intros t. apply fetch_member.
  - apply fetch_none_iff.
  - intros Hm Hne.
    destruct (SuggestedTaskFacts.fetchSuggestedTask_returns mood tasks)
      as ([t|] & E); [now exists t|].
    apply fetch_none_iff in E. destruct E as [->|[Hle _]]; [contradiction | lia].
Qed.

Lemma suggestion_outcome_witness :
  In Sample.laundry [Sample.report; Sample.laundry; Sample.email] /\
  exists t, fetchSuggestedTask 4 [Sample.chore; Sample.laundry] = Ok (Some t).
Proof.
  split.
  - apply (suggestion_outcome 1 [Sample.report; Sample.laundry; Sample.email]).
    reflexivity.
  - apply (suggestion_outcome 4 [Sample.chore; Sample.laundry]);
      [lia | discriminate].
Defined.

End SuggestedTaskMore.

Module SuggestedTaskComponentFacts.
Import SuggestedTaskComponent.

Lemma truthy_nonzero (m : Z) : m <> 0 -> SuggestedTask.truthy (Some m) = true.
Proof.
  intros Hm. unfold SuggestedTask.truthy.
  now replace (m =? 0) with false by (symmetry; now apply Z.eqb_neq).
Qed.

(** The state after a fetch that was answered. *)
Lemma effect_answered (m : Z) (a : Answers) (st : State) (uid : string) :
  m <> 0 -> user a = Some uid -> error a = None ->
  exists suggested,
    SuggestedTask.fetchSuggestedTask m
      (match data a with Some d => d | None => [] end) = Ok suggested /\
    effect (Some m) a st = Ok {| suggestedTask := suggested; loading := false |}.
Proof.
  intros Hm Hu He. unfold effect, fetchSuggestedTask.
  rewrite (truthy_nonzero m Hm), Hu, He.
  destruct (SuggestedTaskFacts.fetchSuggestedTask_returns m
              (match data a with Some d => d | None => [] end))
    as (suggested & E).
  exists suggested. split; [assumption|]. rewrite E. reflexivity.
Qed.

(** X2. After a fetch that was answered, the card of the component is the
    "All tasks completed!" card exactly when the query returned no task or
    the mood is at most 2 and every open task has a difficulty above 3 (so a
    low mood with hard tasks only reads as if everything were done); in
    every other case the card shows a suggestion: the task the choice among
    the open tasks returned, which is one of them, with the message of the
    mood and the colour of its difficulty. *)
Theorem card_after_fetch (m : Z) (a : Answers) (st : State) (uid : string)
    (tasks : list Task) :
  m <> 0 -> user a = Some uid -> error a = None -> data a = Some tasks ->
  exists st',
    effect (Some m) a st = Ok st' /\
    loading st' = false /\
    (render (Some m) st' = AllCompleted <->
     tasks = [] \/ (m <= 2 /\ forall u, In u tasks -> 3 < difficulty u)) /\
    (render (Some m) st' <> AllCompleted ->
     exists t,
       In t tasks /\
       SuggestedTask.fetchSuggestedTask m tasks = Ok (Some t) /\
       render (Some m) st'
       = Suggested t (getMoodSuggestionMessage (Some m))
                   (getDifficultyColor (difficulty t))).
Proof.
  intros Hm Hu He Hd.
  destruct (effect_answered m a st uid Hm Hu He) as (suggested & Es & Ee).
  rewrite Hd in Es.
  eexists. split; [exact Ee|]. split; [reflexivity|].
  unfold render. rewrite (truthy_nonzero m Hm). simpl.
  split.
  - rewrite <- (SuggestedTaskMore.fetch_none_iff m tasks), Es.
    destruct suggested; split; congruence.
  - intros Hcard. destruct suggested as [t|]; [|congruence].
    exists t. split; [exact (SuggestedTaskMore.fetch_member m tasks t Es)|].
    split; [assumption | reflexivity].
Qed.

Lemma card_after_fetch_witness :
  (exists st',
     effect (Some 2)
            {| user := Some "u1"%string;
               data := Some [Sample.report; Sample.thesis];
               error := None |}
            {| suggestedTask := None; loading := false |} = Ok st' /\
     loading st' = false /\
     render (Some 2) st' = AllCompleted) /\
  (exists st',
     effect (Some 4)
            {| user := Some "u1"%string;
               data := Some [Sample.chore; Sample.report];
               error := None |}
            {| suggestedTask := None; loading := false |} = Ok st' /\
     render (Some 4) st'
     = Suggested Sample.report (getMoodSuggestionMessage (Some 4))
                 "text-red-600").
Proof.
  assert (2 <> 0) as H2 by lia.
  assert (4 <> 0) as H4 by lia.
  split.
  - destruct (card_after_fetch 2
                {| user := Some "u1"%string;
                   data := Some [Sample.report; Sample.thesis];
                   error := None |}
                {| suggestedTask := None; loading := false |}
                "u1"%string [Sample.report; Sample.thesis]
                H2 eq_refl eq_refl eq_refl)
      as (st' & E & Hl & Hall & _).
    exists st'. split; [exact E|]. split; [exact Hl|].
    apply Hall. right. split; [lia|].
    intros u [<-|[<-|[]]]; simpl; lia.
  - destruct (card_after_fetch 4
                {| user := Some "u1"%string;
                   data := Some [Sample.chore; Sample.report];
                   error := None |}
                {| suggestedTask := None; loading := false |}
                "u1"%string [Sample.chore; Sample.report]
                H4 eq_refl eq_refl eq_refl)
      as (st' & E & _ & Hall & Hcard).
    exists st'. split; [exact E|].
    destruct Hcard as (t & _ & Et & Hview).
    + intros Hc. apply Hall in Hc.
      destruct Hc as [Hc|[Hc _]]; [discriminate | lia].
    + rewrite Hview. vm_compute in Et. injection Et as <-. reflexivity.
Defined.

(** X3. A fetch that is not answered changes the loading flag only.
    Without a signed-in user the flag stays set and the card stays on
    "Finding the perfect task"; when the query fails the flag is cleared and
    the suggestion of before stays on the card, whatever mood it was chosen
    for. *)
Theorem fetch_unanswered (m : Z) (a : Answers) (st : State) :
  m <> 0 ->
  (user a = None ->
   effect (Some m) a st
   = Ok {| suggestedTask := suggestedTask st; loading := true |} /\
   render (Some m) {| suggestedTask := suggestedTask st; loading := true |}
   = Finding) /\
  (forall uid e,
      user a = Some uid -> error a = Some e ->
      effect (Some m) a st
      = Ok {| suggestedTask := suggestedTask st; loading := false |} /\
      forall t, suggestedTask st = Some t ->
                render (Some m) {| suggestedTask := suggestedTask st;
                                   loading := false |}
                = Suggested t (getMoodSuggestionMessage (Some m))
                            (getDifficultyColor (difficulty t))).
Proof.
  intros Hm. unfold effect, fetchSuggestedTask, render.
  rewrite (truthy_nonzero m Hm). split.
  - intros ->. split; reflexivity.
  - intros uid e -> ->. split; [reflexivity|].
    intros t Ht. simpl. now rewrite Ht.
Qed.

Lemma fetch_unanswered_witness :
  effect (Some 1)
         {| user := Some "u1"%string; data := None;
            error := Some "timeout"%string |}
         {| suggestedTask := Some Sample.report; loading := false |}
  = Ok {| suggestedTask := Some Sample.report; loading := false |} /\
  render (Some 1) {| suggestedTask := Some Sample.report; loading := false |}
  = Suggested Sample.report (getMoodSuggestionMessage (Some 1))
              "text-red-600" /\
  effect (Some 1)
         {| user := None; data := None; error := None |}
         {| suggestedTask := Some Sample.report; loading := false |}
  = Ok {| suggestedTask := Some Sample.report; loading := true |}.
Proof.
  assert (1 <> 0) as H1 by lia.
  destruct (fetch_unanswered 1
              {| user := Some "u1"%string; data := None;
                 error := Some "timeout"%string |}
              {| suggestedTask := Some Sample.report; loading := false |} H1)
    as (_ & Herr).
  destruct (Herr "u1"%string "timeout"%string eq_refl eq_refl) as (E & Hcard).
  split; [exact E|]. split; [exact (Hcard Sample.report eq_refl)|].
  apply (fetch_unanswered 1
           {| user := None; data := None; error := None |}
           {| suggestedTask := Some Sample.report; loading := false |} H1).
  reflexivity.
Defined.

Lemma low_suggestion_easy (mood : Z) (tasks : list Task) (t : Task) :
  mood <= 2 ->
  SuggestedTask.fetchSuggestedTask mood tasks = Ok (Some t) ->
  difficulty t <= 3.
Proof.
  intros Hm H.
  destruct (filter SuggestedTask.is_easy tasks) as [|x rest] eqn:Ef.
  - rewrite (SuggestedTaskFacts.low_none mood tasks Hm) in H; [discriminate|].
    intros u Hu. rewrite (filter_nil_iff SuggestedTask.is_easy) in Ef.
    apply Z.leb_gt. exact (Ef u Hu).
  - destruct (SuggestedTaskFacts.low_some mood tasks Hm)
      as (t' & _ & _ & E & _ & Ht' & _).
    + exists x. assert (In x (filter SuggestedTask.is_easy tasks)) as Hx
        by (rewrite Ef; now left).
      apply filter_In in Hx. split; [tauto|].
      now apply SuggestedTaskFacts.is_easy_spec.
    + congruence.
Qed.

(** X4. The colour of the difficulty badge follows the thresholds of the
    choice: the badge is red exactly for the difficulties the high branch
    counts as hard (4 and more), green up to 2 and yellow at 3; a task
    suggested for a mood of at most 2 is never shown in red. *)
Theorem difficulty_colour_bands :
  (forall d, getDifficultyColor d = "text-red-600"%string <-> 4 <= d) /\
  (forall d, getDifficultyColor d = "text-yellow-600"%string <-> d = 3) /\
  (forall d, getDifficultyColor d = "text-green-600"%string <-> d <= 2) /\
  (forall t, getDifficultyColor (difficulty t) = "text-red-600"%string <->
             SuggestedTask.is_hard t = true) /\
  (forall mood tasks t,
      mood <= 2 ->
      SuggestedTask.fetchSuggestedTask mood tasks = Ok (Some t) ->
      getDifficultyColor (difficulty t) <> "text-red-600"%string).
Proof.
  assert (forall d, getDifficultyColor d = "text-red-600"%string <-> 4 <= d)
    as Hred.
  { intros d. unfold getDifficultyColor.
    destruct (Z.leb_spec d 2); [split; [discriminate | lia]|].
    destruct (Z.leb_spec d 3); [split; [discriminate | lia]|].
    split; [lia | reflexivity]. }
  split; [exact Hred|]. split; [|split; [|split]].
  - intros d. unfold getDifficultyColor.
    destruct (Z.leb_spec d 2); [split; [discriminate | lia]|].
    destruct (Z.leb_spec d 3); [split; [lia | reflexivity]|].
    split; [discriminate | lia].
  - intros d. unfold getDifficultyColor.
    destruct (Z.leb_spec d 2); [split; [lia | reflexivity]|].
    destruct (Z.leb_spec d 3); split; try discriminate; lia.
  - intros t. rewrite Hred. symmetry. apply SuggestedTaskFacts.is_hard_spec.
  - intros mood tasks t Hm H. rewrite Hred.
    pose proof (low_suggestion_easy mood tasks t Hm H). lia.
Qed.

End SuggestedTaskComponentFacts.

(* ===================================================================== *)
(** * TaskList: further properties *)
(* ===================================================================== *)

Section SortedFacts.
Context {A : Type} (cmp : A -> A -> Z) (key : A -> Z).
Hypothesis cmp_key : forall a b, cmp a b <= 0 <-> key a <= key b.

(** Sorting a list that is in order changes nothing. *)
Lemma sort_Ascending_id (l : list A) : Ascending key l -> sort cmp l = l.
Proof.
  unfold Ascending. induction 1 as [|a l Hl IH Ha]; simpl; [reflexivity|].
  rewrite IH. destruct l as [|b l]; [reflexivity|]. simpl.
  inversion Ha as [|? ? Hab _]; subst.
  apply cmp_key in Hab. apply Z.leb_le in Hab. now rewrite Hab.
Qed.

Lemma sort_idempotent (l : list A) : sort cmp (sort cmp l) = sort cmp l.
Proof. apply sort_Ascending_id. now apply sort_Ascending. Qed.

End SortedFacts.

Lemma filter_all {A : Type} (f : A -> bool) (l : list A) :
  (forall a, In a l -> f a = true) -> filter f l = l.
Proof.
  intros H. apply forallb_filter_id. now apply forallb_forall.
Qed.

Lemma sum_fold (f : Task -> Z) (l : list Task) (a : Z) :
  fold_left (fun sum t => sum + f t) l a = a + fold_right (fun t s => f t + s) 0 l.
Proof.
  revert a. induction l as [|t l IH]; intros a; simpl; [lia|].
  rewrite IH. lia.
Qed.

Lemma sum_perm (f : Task -> Z) (l l' : list Task) :
  Permutation l l' ->
  fold_right (fun t s => f t + s) 0 l = fold_right (fun t s => f t + s) 0 l'.
Proof. induction 1; simpl; lia. Qed.

Module TaskListMore.
Import TaskList TaskListComponent.

Lemma sorted_incomplete (tasks : list Task) (mood : Z) (t : Task) :
  In t (sortTasksByMood tasks mood) -> negb (completed t) = true.
Proof.
  unfold sortTasksByMood.
  destruct (mood <=? 2); [|destruct (mood =? 3)];
    rewrite sort_In, ?filter_In; tauto.
Qed.

(** X5. Ranking a ranked list changes nothing: for every mood,
    [sortTasksByMood] applied to its own result returns that result. *)
Theorem rank_idempotent (tasks : list Task) (mood : Z) :
  sortTasksByMood (sortTasksByMood tasks mood) mood = sortTasksByMood tasks mood.
Proof.
  assert (filter (fun task => negb (completed task)) (sortTasksByMood tasks mood)
          = sortTasksByMood tasks mood) as Hinc.
  { apply filter_all. intros a. apply sorted_incomplete. }
  unfold sortTasksByMood at 1. rewrite Hinc.
  destruct (Z.leb_spec mood 2) as [Hm|Hm].
  - rewrite TaskListFacts.sortTasksByMood_low by assumption.
    rewrite filter_all.
    + apply (sort_idempotent byDifficulty difficulty).
      apply TaskListFacts.byDifficulty_key.
    + intros a Ha. apply sort_In, filter_In in Ha. tauto.
  - rewrite TaskListFacts.sortTasksByMood_other by lia.
    assert (sort byScore (sort byScore (filter (fun t => negb (completed t)) tasks))
            = sort byScore (filter (fun t => negb (completed t)) tasks)) as E.
    { apply (sort_idempotent byScore (fun t => - score t)).
      apply TaskListFacts.byScore_key. }
    destruct (mood =? 3); exact E.
Qed.

Lemma sortedTasks_mood (m : Z) (data : list Task) :
  m <> 0 -> sortedTasks (Some m) data = sortTasksByMood data m.
Proof.
  intros Hm. unfold sortedTasks.
  now rewrite SuggestedTaskComponentFacts.truthy_nonzero.
Qed.

Lemma filter_length_bound {A : Type} (f : A -> bool) (l : list A) :
  (List.length (filter f l) <= List.length l)%nat.
Proof.
  induction l as [|a l IH]; simpl; [lia|]. destruct (f a); simpl; lia.
Qed.

(** A run of [fetchTasks] that is answered. *)
Lemma fetchTasks_answered (mood : option Z) (a : Answers) (st : State)
    (uid : string) (tasks : list Task) :
  user a = Some uid -> error a = None -> data a = Some tasks ->
  fetchTasks mood a st
  = ({| TaskListComponent.tasks := sortedTasks mood tasks; loading := false |},
     Some (focusCount mood tasks, totalTimeMinutes mood tasks)).
Proof. intros Hu He Hd. unfold fetchTasks. now rewrite Hu, He, Hd. Qed.

(** X6. What one run of [fetchTasks] stores, by the mood of the rendering
    it belongs to.  With no mood the list stored is the query result as it
    is, completed tasks included; with a mood from 3 on it holds the open
    tasks only; with a mood of at most 2 it holds only tasks that a run with
    a mood from 3 on stores too.  The counts the runs compute for the
    dashboard are ordered accordingly. *)
Theorem lower_mood_stores_no_more (low other : Z) (a : Answers) (st : State)
    (uid : string) (result : list Task) :
  user a = Some uid -> error a = None -> data a = Some result ->
  low <> 0 -> low <= 2 -> 3 <= other ->
  tasks (fst (fetchTasks None a st)) = result /\
  (forall t, In t (tasks (fst (fetchTasks (Some other) a st))) <->
             In t result /\ completed t = false) /\
  (forall t, In t (tasks (fst (fetchTasks (Some low) a st))) ->
             In t (tasks (fst (fetchTasks (Some other) a st)))) /\
  (exists n_low n_other n_none time_low time_other time_none,
      snd (fetchTasks (Some low) a st) = Some (n_low, time_low) /\
      snd (fetchTasks (Some other) a st) = Some (n_other, time_other) /\
      snd (fetchTasks None a st) = Some (n_none, time_none) /\
      (n_low <= n_other <= n_none)%nat /\
      n_none = List.length result).
Proof.
  intros Hu He Hd H0 Hlow Hother.
  rewrite !(fetchTasks_answered _ a st uid result Hu He Hd). cbn [fst snd tasks].
  unfold focusCount.
  rewrite (sortedTasks_mood low) by assumption.
  rewrite (sortedTasks_mood other) by lia.
  rewrite (TaskListFacts.sortTasksByMood_low result low) by assumption.
  rewrite (TaskListFacts.sortTasksByMood_other result other) by assumption.
  split; [reflexivity|]. split; [|split].
  - intros t. rewrite sort_In, filter_In, negb_true_iff. tauto.
  - intros t. rewrite !sort_In, !filter_In. tauto.
  - do 6 eexists. split; [reflexivity|]. split; [reflexivity|].
    split; [reflexivity|]. split; [|reflexivity].
    rewrite !sort_length. split; apply filter_length_bound.
Qed.

Lemma lower_mood_stores_no_more_witness :
  tasks (fst (fetchTasks None
                {| user := Some "u1"%string;
                   data := Some [Sample.report; Sample.archived; Sample.chore];
                   error := None |} initial))
  = [Sample.report; Sample.archived; Sample.chore] /\
  forall t,
    In t (tasks (fst (fetchTasks (Some 1%Z)
                        {| user := Some "u1"%string;
                           data := Some [Sample.report; Sample.archived;
                                         Sample.chore];
                           error := None |} initial))) ->
    In t (tasks (fst (fetchTasks (Some 4%Z)
                        {| user := Some "u1"%string;
                           data := Some [Sample.report; Sample.archived;
                                         Sample.chore];
                           error := None |} initial))).
Proof.
  assert (1 <> 0) as Hnz by lia.
  assert (1 <= 2) as Hlow by lia.
  assert (3 <= 4) as Hother by lia.
  destruct (lower_mood_stores_no_more 1 4
              {| user := Some "u1"%string;
                 data := Some [Sample.report; Sample.archived; Sample.chore];
                 error := None |} initial "u1"%string
              [Sample.report; Sample.archived; Sample.chore]
              eq_refl eq_refl eq_refl Hnz Hlow Hother)
    as (H1 & _ & H3 & _).
  split; [exact H1 | exact H3].
Defined.

(** The minutes of a list of tasks, a missing estimate counting as 0. *)
Lemma totalTimeMinutes_sum (mood : option Z) (data : list Task) :
  totalTimeMinutes mood data
  = fold_right (fun t s => match estimated_time t with
                           | Some n => n
                           | None => 0
                           end + s) 0 (sortedTasks mood data).
Proof. unfold totalTimeMinutes. rewrite sum_fold. lia. Qed.

(** X7. The minutes one run of [fetchTasks] computes for the dashboard are
    the sum of the estimates of the tasks it stores and do not depend on
    their order: for a mood from 3 on the sum over the open tasks of the
    query result (the same for every such mood), for a mood of at most 2 the
    sum over the open tasks of difficulty at most 3.  A task without
    estimate adds nothing. *)
Theorem total_minutes_of_stored (m : Z) (a : Answers) (st : State)
    (uid : string) (result : list Task) :
  user a = Some uid -> error a = None -> data a = Some result ->
  m <> 0 ->
  exists count,
    snd (fetchTasks (Some m) a st)
    = Some (count,
            fold_left (fun sum task => sum + match estimated_time task with
                                             | Some n => n
                                             | None => 0
                                             end)
              (filter (fun t => negb (completed t)
                                && ((difficulty t <=? 3) || (2 <? m))) result)
              0).
Proof.
  intros Hu He Hd Hm.
  rewrite (fetchTasks_answered _ a st uid result Hu He Hd). cbn [snd].
  eexists. do 2 f_equal.
  rewrite totalTimeMinutes_sum, sum_fold, Z.add_0_l.
  apply sum_perm. rewrite sortedTasks_mood by assumption.
  destruct (Z.leb_spec m 2) as [Hle|Hgt].
  - rewrite TaskListFacts.sortTasksByMood_low by assumption.
    rewrite sort_perm, filter_filter_andb.
    replace (2 <? m) with false by (symmetry; apply Z.ltb_ge; lia).
    erewrite filter_ext; [reflexivity|]. intros t. simpl.
    now rewrite orb_false_r.
  - rewrite TaskListFacts.sortTasksByMood_other by lia.
    rewrite sort_perm.
    replace (2 <? m) with true by (symmetry; apply Z.ltb_lt; lia).
    erewrite filter_ext; [reflexivity|]. intros t. simpl.
    now rewrite orb_true_r, andb_true_r.
Qed.

Lemma total_minutes_of_stored_witness :
  snd (fetchTasks (Some 2)
         {| user := Some "u1"%string;
            data := Some [Sample.timed Sample.report (Some 90);
                          Sample.timed Sample.archived (Some 10);
                          Sample.timed Sample.laundry None;
                          Sample.timed Sample.chore (Some 15)];
            error := None |} initial)
  = Some (2%nat, 15) /\
  snd (fetchTasks (Some 4)
         {| user := Some "u1"%string;
            data := Some [Sample.timed Sample.report (Some 90);
                          Sample.timed Sample.archived (Some 10);
                          Sample.timed Sample.laundry None;
                          Sample.timed Sample.chore (Some 15)];
            error := None |} initial)
  = Some (3%nat, 105).
Proof.
  assert (2 <> 0) as H2 by lia.
  assert (4 <> 0) as H4 by lia.
  split.
  - destruct (total_minutes_of_stored 2
                {| user := Some "u1"%string;
                   data := Some [Sample.timed Sample.report (Some 90);
                                 Sample.timed Sample.archived (Some 10);
                                 Sample.timed Sample.laundry None;
                                 Sample.timed Sample.chore (Some 15)];
                   error := None |} initial "u1"%string _
                eq_refl eq_refl eq_refl H2) as (count & E).
    rewrite E. vm_compute in E. injection E as <-. reflexivity.
  - destruct (total_minutes_of_stored 4
                {| user := Some "u1"%string;
                   data := Some [Sample.timed Sample.report (Some 90);
                                 Sample.timed Sample.archived (Some 10);
                                 Sample.timed Sample.laundry None;
                                 Sample.timed Sample.chore (Some 15)];
                   error := None |} initial "u1"%string _
                eq_refl eq_refl eq_refl H4) as (count & E).
    rewrite E. vm_compute in E. injection E as <-. reflexivity.
Defined.

(** When a run of [fetchTasks] stores no task. *)
Lemma sortedTasks_nil (mood : option Z) (data : list Task) :
  sortedTasks mood data = [] <->
  (SuggestedTask.truthy mood = false /\ data = []) \/
  (exists m, mood = Some m /\ m <> 0 /\ m <= 2 /\
             forall t, In t data -> completed t = true \/ 3 < difficulty t) \/
  (exists m, mood = Some m /\ 3 <= m /\
             forall t, In t data -> completed t = true).
Proof.
  assert (forall (f : Task -> Task -> Z) l, sort f l = [] <-> l = []) as Hsort.
  { intros f l. split; [|now intros ->]. intros E.
    apply length_zero_iff_nil. rewrite <- (sort_length f), E. reflexivity. }
  destruct mood as [m|]; [destruct (Z.eq_dec m 0) as [->|Hm]|].
  - unfold sortedTasks. simpl. split.
    + intros ->. now left.
    + intros [[_ E]|[(m & E & H0 & _)|(m & E & H3 & _)]];
        [assumption | congruence | injection E as <-; lia].
  - rewrite sortedTasks_mood by assumption.
    rewrite (SuggestedTaskComponentFacts.truthy_nonzero m Hm).
    destruct (Z.leb_spec m 2) as [Hle|Hgt].
    + rewrite TaskListFacts.sortTasksByMood_low by assumption.
      rewrite Hsort, filter_filter_andb, (filter_nil_iff _). split.
      * intros El. right. left. exists m. repeat split; try assumption.
        intros t Ht. specialize (El t Ht).
        apply andb_false_iff in El. destruct El as [El|El].
        -- left. now apply negb_false_iff in El.
        -- right. now apply Z.leb_gt in El.
      * intros [[E _]|[(m' & E & _ & _ & Hall)|(m' & E & H3 & _)]];
          [discriminate | | injection E as <-; lia].
        intros t Ht. apply andb_false_iff.
        destruct (Hall t Ht) as [Hc|Hd];
          [left; now rewrite Hc | right; now apply Z.leb_gt].
    + rewrite TaskListFacts.sortTasksByMood_other by lia.
      rewrite Hsort, (filter_nil_iff _). split.
      * intros El. right. right. exists m. repeat split; [lia|].
        intros t Ht. specialize (El t Ht). now apply negb_false_iff in El.
      * intros [[E _]|[(m' & E & _ & Hle & _)|(m' & E & _ & Hall)]];
          [discriminate | injection E as <-; lia |].
        intros t Ht. now rewrite (Hall t Ht).
  - unfold sortedTasks. simpl. split.
    + intros ->. now left.
    + intros [[_ E]|[(m & E & _)|(m & E & _)]];
        [assumption | discriminate | discriminate].
Qed.

(** X8. The notice for an empty list.  The list on screen is the one the
    last run of [fetchTasks] stored, with the mood [fetched] of that run;
    the notice follows the mood [shown] of the rendering.  "No easy tasks
    available right now" is shown exactly when the stored list is empty and
    the mood shown is a mood of at most 2; "No tasks yet" exactly when the
    stored list is empty and the mood shown is none or from 3 on; a list
    that is not empty is shown as it was stored, whatever the mood shown.
    The stored list is empty exactly when the run had no mood and the query
    result was empty, or a mood of at most 2 and no open task of difficulty
    at most 3, or a mood from 3 on and no open task. *)
Theorem empty_list_notice (fetched shown : option Z) (a : Answers) (st : State)
    (uid : string) (result : list Task) :
  user a = Some uid -> error a = None -> data a = Some result ->
  let stored := fst (fetchTasks fetched a st) in
  (view shown stored = NoEasyTasks <->
   tasks stored = [] /\ exists m, shown = Some m /\ m <> 0 /\ m <= 2) /\
  (view shown stored = NoTasksYet <->
   tasks stored = [] /\ ~ (exists m, shown = Some m /\ m <> 0 /\ m <= 2)) /\
  (tasks stored <> [] -> view shown stored = Rows (tasks stored)) /\
  (tasks stored = [] <->
   (SuggestedTask.truthy fetched = false /\ result = []) \/
   (exists m, fetched = Some m /\ m <> 0 /\ m <= 2 /\
              forall t, In t result -> completed t = true \/ 3 < difficulty t) \/
   (exists m, fetched = Some m /\ 3 <= m /\
              forall t, In t result -> completed t = true)).
Proof.
  intros Hu He Hd stored. unfold stored.
  rewrite (fetchTasks_answered _ a st uid result Hu He Hd).
  cbn [fst tasks]. unfold view. cbn [loading tasks].
  split; [|split; [|split]]; [| | |apply sortedTasks_nil].
  - unfold render.
    destruct (sortedTasks fetched result) as [|t l]; simpl.
    + destruct shown as [m|].
      * cbn [SuggestedTask.truthy].
        destruct (Z.eqb_spec m 0) as [->|Hm]; simpl.
        -- split; [discriminate|]. intros (_ & m & E & H0 & _).
           injection E as <-. lia.
        -- destruct (Z.leb_spec m 2); split; try discriminate;
             try (intros; reflexivity).
           ++ intros _. split; [reflexivity|]. now exists m.
           ++ intros (_ & m' & E & _ & Hle). injection E as <-. lia.
      * split; [discriminate|]. intros (_ & m & E & _). discriminate.
    + split; [discriminate|]. intros [E _]. discriminate.
  - unfold render.
    destruct (sortedTasks fetched result) as [|t l]; simpl.
    + destruct shown as [m|].
      * cbn [SuggestedTask.truthy].
        destruct (Z.eqb_spec m 0) as [->|Hm]; simpl.
        -- split; [|reflexivity]. intros _. split; [reflexivity|].
           intros (m & E & H0 & _). injection E as <-. lia.
        -- destruct (Z.leb_spec m 2); split; try discriminate;
             try (intros; reflexivity).
           ++ intros (_ & Hno). exfalso. apply Hno. now exists m.
           ++ intros _. split; [reflexivity|].
              intros (m' & E & _ & Hle). injection E as <-. lia.
      * split; [|reflexivity]. intros _. split; [reflexivity|].
        intros (m & E & _). discriminate.
    + split; [discriminate|]. intros [E _]. discriminate.
  - unfold render. destruct (sortedTasks fetched result); [congruence|].
    reflexivity.
Qed.

Lemma empty_list_notice_witness :
  view (Some 1)
       (fst (fetchTasks None
               {| user := Some "u1"%string;
                  data := Some [Sample.report];
                  error := None |} initial))
  = Rows [Sample.report] /\
  view (Some 1)
       (fst (fetchTasks (Some 1)
               {| user := Some "u1"%string;
                  data := Some [Sample.report];
                  error := None |} initial))
  = NoEasyTasks.
Proof.
  split.
  - destruct (empty_list_notice None (Some 1)
                {| user := Some "u1"%string;
                   data := Some [Sample.report];
                   error := None |} initial "u1"%string [Sample.report]
                eq_refl eq_refl eq_refl) as (_ & _ & Hrows & _).
    apply Hrows. discriminate.
  - destruct (empty_list_notice (Some 1) (Some 1)
                {| user := Some "u1"%string;
                   data := Some [Sample.report];
                   error := None |} initial "u1"%string [Sample.report]
                eq_refl eq_refl eq_refl) as (Heasy & _).
    apply Heasy. split; [reflexivity|]. exists 1. repeat split; lia.
Defined.

End TaskListMore.

Module TaskListEarlierFacts.
Import TaskListEarlier.

Lemma compare_low (mood : Z) (a b : Task) :
  mood <= 2 -> (compare mood a b <= 0 <-> difficulty a <= difficulty b).
Proof.
  intros Hm. unfold compare. apply Z.leb_le in Hm. rewrite Hm. lia.
Qed.

Lemma compare_high (mood : Z) (a b : Task) :
  4 <= mood ->
  (compare mood a b <= 0 <->
   - (priorityWeight (priority a) + difficulty a)
   <= - (priorityWeight (priority b) + difficulty b)).
Proof.
  intros Hm. unfold compare.
  replace (mood <=? 2) with false by (symmetry; apply Z.leb_gt; lia).
  apply Z.leb_le in Hm. rewrite Hm. cbv zeta. lia.
Qed.

Lemma compare_neutral (a b : Task) : compare 3 a b <= 0 <-> 0 <= 0.
Proof. unfold compare. simpl. lia. Qed.

Lemma Ascending_const {A : Type} (l : list A) : Ascending (fun _ => 0) l.
Proof.
  unfold Ascending. induction l as [|a l IH]; constructor; [assumption|].
  apply Forall_forall. intros; lia.
Qed.

(** X9. The earlier [sortTasksByMood] only reorders: for every mood its
    result is a rearrangement of all the tasks given, completed and hard
    ones included.  For a mood of at most 2 the order is ascending
    difficulty, from mood 4 on descending [priorityWeight + difficulty]
    (without the factor 10 of the later component), and for mood 3 the list
    is returned in the order given. *)
Theorem earlier_sort_reorders (tasks : list Task) (mood : Z) :
  Permutation (sortTasksByMood tasks mood) tasks /\
  (mood <= 2 -> Ascending difficulty (sortTasksByMood tasks mood)) /\
  (mood = 3 -> sortTasksByMood tasks mood = tasks) /\
  (4 <= mood ->
   Descending (fun t => priorityWeight (priority t) + difficulty t)
              (sortTasksByMood tasks mood)).
Proof.
  unfold sortTasksByMood. split; [apply sort_perm|]. split; [|split].
  - intros Hm. apply (sort_Ascending (compare mood)).
    intros a b. now apply compare_low.
  - intros ->. apply (sort_Ascending_id (compare 3) (fun _ => 0)).
    + apply compare_neutral.
    + apply Ascending_const.
  - intros Hm. apply TaskListFacts.Ascending_opp.
    apply (sort_Ascending (compare mood)
             (fun t => - (priorityWeight (priority t) + difficulty t))).
    intros a b. now apply compare_high.
Qed.

End TaskListEarlierFacts.

(* ===================================================================== *)
(** * The mood across the components *)
(* ===================================================================== *)

Module MoodFacts.



End MoodFacts.

(* ===================================================================== *)
(** * CalendarPlanner *)
(* ===================================================================== *)

Module CalendarPlannerFacts.
Import CalendarPlanner.

Lemma round_div_60 (seconds : Z) :
  - 30 <= seconds - 60 * round_div seconds 60 < 30.
Proof.
  unfold round_div.
  pose proof (Z.div_mod (2 * seconds + 60) (2 * 60) ltac:(lia)) as E.
  pose proof (Z.mod_pos_bound (2 * seconds + 60) (2 * 60) ltac:(lia)) as B.
  lia.
Qed.

(** X11. The travel time of an event, a number of seconds from 0 up to the
    largest safe integer 2^53 - 1 (the column holds a 32-bit integer), is
    shown in whole minutes, rounded to the nearest minute (so at most 30
    seconds off): as ["<m>m"] below one hour and as ["<h>h <m>m"] with fewer
    than 60 minutes from then on, one hour being reached at 3570 seconds. *)
Theorem formatDuration_rounds (seconds : Z) :
  0 <= seconds <= 9007199254740991 ->
  exists h m,
    0 <= h /\ 0 <= m < 60 /\
    - 30 <= seconds - 60 * (60 * h + m) < 30 /\
    (h = 0 <-> seconds < 3570) /\
    formatDuration seconds
    = if h =? 0 then String.append (toString m) "m"
      else String.append (toString h)
             (String.append "h " (String.append (toString m) "m")).
Proof.
  intros Hs. unfold formatDuration.
  pose proof (round_div_60 seconds) as Hr.
  set (minutes := round_div seconds 60) in *.
  assert (0 <= minutes) as Hmin by lia.
  destruct (Z.ltb_spec minutes 60) as [Hlt|Hge].
  - exists 0, minutes. change (0 =? 0) with true. cbv iota.
    split; [lia|]. split; [lia|]. split; [lia|]. split; [|reflexivity].
    split; [lia | reflexivity].
  - exists (minutes / 60), (Z.rem minutes 60).
    rewrite Z.rem_mod_nonneg by lia.
    pose proof (Z.div_mod minutes 60 ltac:(lia)) as E.
    pose proof (Z.mod_pos_bound minutes 60 ltac:(lia)) as B.
    assert (1 <= minutes / 60) as Hh by (apply Z.div_le_lower_bound; lia).
    split; [lia|]. split; [lia|]. split; [lia|]. split; [lia|].
    replace (minutes / 60 =? 0) with false
      by (symmetry; apply Z.eqb_neq; lia).
    reflexivity.
Qed.

Lemma formatDuration_rounds_witness :
  exists h m,
    0 <= h /\ 0 <= m < 60 /\
    - 30 <= 5430 - 60 * (60 * h + m) < 30 /\
    (h = 0 <-> 5430 < 3570) /\
    "1h 31m"%string
    = if h =? 0 then String.append (toString m) "m"
      else String.append (toString h)
             (String.append "h " (String.append (toString m) "m")).
Proof.
  change "1h 31m"%string with (formatDuration 5430).
  apply (formatDuration_rounds 5430). lia.
Defined.

End CalendarPlannerFacts.

(* ===================================================================== *)
(** * Settings *)
(* ===================================================================== *)

Module SettingsFacts.
Import Settings.



End SettingsFacts.

(* ===================================================================== *)
(** * calculate-travel: further properties *)
(* ===================================================================== *)

Module CalculateTravelMore.
Import CalculateTravel CalculateTravelSpec.

(** X13. The answers of the function to a request it does not process, in
    the order of its checks.  A preflight request is answered at once,
    whatever else it carries.  Any other request is turned down with status
    400 and the message of the first check it fails: no authorization
    header, then no authenticated user, then no profile or no home location
    (an empty one included), then a failed query for the events.  In each of
    these cases the table is left as it was. *)
Theorem handler_rejections (env : Env) (table : list CalendarEvent) :
  (method env = "OPTIONS"%string -> handler env table = (Preflight, table)) /\
  (method env <> "OPTIONS"%string ->
   (falsy (authorization env) = true ->
    handler env table = (Failed "No authorization header", table)) /\
   (falsy (authorization env) = false -> user env = None ->
    handler env table = (Failed "Not authenticated", table)) /\
   (forall uid,
       falsy (authorization env) = false -> user env = Some uid ->
       (profiles env uid = None \/
        exists profile, profiles env uid = Some profile /\
                        falsy (home_location profile) = true) ->
       handler env table = (Failed "Home location not set in profile", table)) /\
   (forall uid profile e,
       falsy (authorization env) = false -> user env = Some uid ->
       profiles env uid = Some profile ->
       falsy (home_location profile) = false ->
       eventsError env = Some e ->
       handler env table = (Failed e, table))).
Proof.
  unfold handler, serve. split.
  - intros ->. reflexivity.
  - intros Hm. apply String.eqb_neq in Hm. rewrite Hm.
    split; [|split; [|split]].
    + intros ->. reflexivity.
    + intros -> ->. reflexivity.
    + intros uid -> -> Hp. cbn [bind].
      destruct Hp as [-> | (profile & -> & ->)]; reflexivity.
    + intros uid profile e -> -> Hp Hh He. cbn [bind].
      rewrite Hp, Hh. cbn [bind]. rewrite He. reflexivity.
Qed.

Lemma handler_rejections_witness :
  handler {| method := "POST"; authorization := Some EmptyString;
             user := Some "u1"%string; profiles := profiles Sample.env;
             eventsError := None; now := 0;
             directions := directions Sample.env;
             update_updated_at_column := fun _ new => new;
             updateCarriedOut := fun _ => true |}
          Sample.table
  = (Failed "No authorization header", Sample.table) /\
  handler {| method := "OPTIONS"; authorization := None;
             user := None; profiles := profiles Sample.env;
             eventsError := None; now := 0;
             directions := directions Sample.env;
             update_updated_at_column := fun _ new => new;
             updateCarriedOut := fun _ => true |}
          Sample.table
  = (Preflight, Sample.table).
Proof.
  split.
  - apply handler_rejections; [discriminate | reflexivity].
  - apply handler_rejections. reflexivity.
Defined.

Lemma applyUpdate_ids (env : Env) (table : list CalendarEvent) (u : Update.t) :
  keepsId env -> map id (applyUpdate env table u) = map id table.
Proof.
  intros Hkeep. unfold applyUpdate.
  destruct (written env u); [|reflexivity].
  rewrite map_map. apply map_ext.
  intros r. destruct (id r =? Update.id u)%string; [|reflexivity].
  now rewrite Hkeep.
Qed.

Lemma writeBack_ids (env : Env) (updates : list Update.t)
    (table : list CalendarEvent) :
  keepsId env -> map id (writeBack env table updates) = map id table.
Proof.
  intros Hkeep. unfold writeBack. revert table.
  induction updates as [|u us IH]; intros table; simpl; [reflexivity|].
  now rewrite IH, applyUpdate_ids.
Qed.

(** The response and the table of any request: turned down, or the
    write-back of what the loop pushed. *)
Lemma handler_outcome (env : Env) (table : list CalendarEvent) :
  (exists response, (forall n, response <> Updated n) /\
                    forall t, handler env t = (response, t)) \/
  (exists uid profile, accepted env uid profile).
Proof.
  unfold handler, serve.
  destruct (String.eqb_spec (method env) "OPTIONS") as [Hm|Hm].
  { left. exists Preflight. split; [discriminate | reflexivity]. }
  destruct (falsy (authorization env)) eqn:Ha.
  { left. eexists. split; [|reflexivity]. discriminate. }
  cbn [bind].
  destruct (user env) as [uid|] eqn:Hu;
    [|left; eexists; split; [|reflexivity]; discriminate].
  cbn [bind].
  destruct (profiles env uid) as [profile|] eqn:Hp;
    [|left; eexists; split; [|reflexivity]; discriminate].
  destruct (falsy (home_location profile)) eqn:Hh;
    [left; eexists; split; [|reflexivity]; discriminate|].
  cbn [bind].
  destruct (eventsError env) eqn:He;
    [left; eexists; split; [|reflexivity]; discriminate|].
  right. exists uid, profile. repeat split; assumption.
Qed.

Lemma handler_ids (env : Env) (table : list CalendarEvent) :
  keepsId env -> map id (snd (handler env table)) = map id table.
Proof.
  intros Hkeep.
  destruct (handler_outcome env table)
    as [(response & _ & E) | (uid & profile & Hacc)].
  - now rewrite E.
  - rewrite (CalculateTravelFacts.handler_accepted env uid profile table Hacc).
    simpl. now apply writeBack_ids.
Qed.

(** X14. The function never adds, removes or reorders rows of the table and
    leaves the primary keys in place: after any request the table holds the
    same ids in the same order, so they stay unique; and the count it
    reports never exceeds the number of rows. *)
Theorem handler_keeps_rows (env : Env) (table : list CalendarEvent) :
  keepsId env ->
  map id (snd (handler env table)) = map id table /\
  List.length (snd (handler env table)) = List.length table /\
  (NoDup (map id table) -> NoDup (map id (snd (handler env table)))) /\
  (forall n, fst (handler env table) = Updated n ->
             (n <= List.length table)%nat).
Proof.
  intros Hkeep.
  pose proof (handler_ids env table Hkeep) as Hids.
  split; [exact Hids|]. split; [|split].
  - rewrite <- (length_map id), Hids. apply length_map.
  - intros Hnd. now rewrite Hids.
  - intros n Hn.
    destruct (handler_outcome env table)
      as [(response & Hno & E) | (uid & profile & Hacc)].
    + rewrite E in Hn. simpl in Hn. now apply Hno in Hn.
    + rewrite (CalculateTravelFacts.handler_accepted env uid profile table Hacc)
        in Hn.
      simpl in Hn. injection Hn as <-.
      rewrite CalculateTravelFacts.pushed_length.
      etransitivity; [apply filter_length_le|].
      apply filter_length_le.
Qed.

Lemma handler_keeps_rows_witness :
  map id (snd (handler Sample.env Sample.table))
  = ["e1"; "e2"; "e3"; "e4"; "e5"; "e6"; "e7"]%string.
Proof.
  assert (keepsId Sample.env) as Hkeep by (intros old new; reflexivity).
  destruct (handler_keeps_rows Sample.env Sample.table Hkeep) as (Hids & _).
  rewrite Hids. reflexivity.
Defined.

(** X15. The travel time of an event is the duration of the first leg of
    the first route of an OK answer; further legs and further routes are
    not looked at.  The update is pushed when the event start and the leave
    time are instants a [Date] can hold; when one of them is not, or when
    the first route has no leg, nothing is pushed: the exception
    ([toISOString] of an invalid date, reading the missing leg) is caught
    like any other, and the updates gathered so far are kept. *)
Theorem travel_time_is_first_leg (env : Env) (profile : Profile)
    (event : CalendarEvent) (updates : list Update.t) :
  (forall leg more others,
      directions env event
      = Ok {| status := "OK";
              routes := {| legs := leg :: more |} :: others |} ->
      (inDateRange (start_time event) ->
       inDateRange (leaveAt profile event (duration_value leg)) ->
       forEvents env profile [event] updates
       = updates ++
         [ {| Update.id := id event;
              Update.travel_time_seconds := duration_value leg;
              Update.recommended_leave_time :=
                Date.toISOString
                  (start_time event
                   - seconds (duration_value leg
                              + num (travel_buffer_time profile) * 60)) |} ]) /\
      (~ (inDateRange (start_time event) /\
          inDateRange (leaveAt profile event (duration_value leg))) ->
       forEvents env profile [event] updates = updates)) /\
  (forall others,
      directions env event
      = Ok {| status := "OK"; routes := {| legs := [] |} :: others |} ->
      forEvents env profile [event] updates = updates).
Proof.
  split.
  - intros leg more others E.
    assert (routing env event = Some (duration_value leg)) as Hr
      by (unfold routing; now rewrite E).
    simpl. rewrite CalculateTravelFacts.tryEvent_caught. unfold pushed.
    split.
    + intros Hs Hl.
      now rewrite (CalculateTravelFacts.computed_valid env profile event _ Hr Hs Hl).
    + intros Hno.
      rewrite (CalculateTravelFacts.computed_invalid env profile event _ Hr Hno).
      apply app_nil_r.
  - intros others E. simpl.
    rewrite CalculateTravelFacts.tryEvent_caught.
    unfold pushed, computed, routing. rewrite E. simpl. apply app_nil_r.
Qed.

Lemma travel_time_is_first_leg_witness :
  forEvents
    {| method := "POST"; authorization := None; user := None;
       profiles := fun _ => None; eventsError := None; now := 0;
       directions := fun _ =>
         Ok {| status := "OK";
               routes := [ {| legs := [ {| duration_value := 900 |};
                                        {| duration_value := 40 |} ] |};
                           {| legs := [ {| duration_value := 7 |} ] |} ] |};
       update_updated_at_column := fun _ new => new;
       updateCarriedOut := fun _ => true |}
    Sample.profile [Sample.dinner] []
  = [ {| Update.id := "e1";
         Update.travel_time_seconds := 900;
         Update.recommended_leave_time := "2024-01-01T17:30:00.000Z" |} ] /\
  forEvents
    {| method := "POST"; authorization := None; user := None;
       profiles := fun _ => None; eventsError := None; now := 0;
       directions := fun _ =>
         Ok {| status := "OK";
               routes := [ {| legs := [ {| duration_value := 9000000000000 |} ] |} ] |};
       update_updated_at_column := fun _ new => new;
       updateCarriedOut := fun _ => true |}
    Sample.profile [Sample.dinner] []
  = [].
Proof.
  split.
  - match goal with
    | |- forEvents ?env _ _ _ = _ =>
        destruct (proj1 (travel_time_is_first_leg env Sample.profile
                           Sample.dinner [])
                    {| duration_value := 900 |} [ {| duration_value := 40 |} ]
                    [ {| legs := [ {| duration_value := 7 |} ] |} ] eq_refl)
          as [Hvalid _]
    end.
    rewrite Hvalid; [reflexivity | |];
      unfold inDateRange; split; apply Z.leb_le; reflexivity.
  - match goal with
    | |- forEvents ?env _ _ _ = _ =>
        destruct (proj1 (travel_time_is_first_leg env Sample.profile
                           Sample.dinner [])
                    {| duration_value := 9000000000000 |} [] [] eq_refl)
          as [_ Hinvalid]
    end.
    apply Hinvalid. intros [_ [H _]].
    apply Z.leb_le in H. vm_compute in H. discriminate H.
Defined.

Import CalculateTravelSpecMore.

Section Rerun.
Variable env : Env.
Hypothesis touch : touchesUpdatedAtOnly env.
Hypothesis lookup : byLocation env.

Lemma touch_keepsId : keepsId env.
Proof. intros old new. apply touch. Qed.

Lemma touch_same (old new : CalendarEvent) :
  sameButUpdatedAt new (update_updated_at_column env old new).
Proof.
  destruct (touch old new) as (H1 & H2 & H3 & H4 & H5 & H6 & H7 & H8 & H9 & H10
                               & H11 & H12).
  repeat split; assumption.
Qed.

Variables (uid : string) (profile : Profile).

(** A row after the request has the key, the owner, the place and the start
    it had, and its turn ends as before. *)
Lemma expected_selects (r : CalendarEvent) (later : Z) :
  selects uid later (expected env uid profile r) = selects uid later r /\
  computed env profile (expected env uid profile r) = computed env profile r.
Proof.
  assert (forall r', id r' = id r -> user_id r' = user_id r ->
                     location r' = location r ->
                     start_time r' = start_time r ->
                     selects uid later r' = selects uid later r /\
                     computed env profile r' = computed env profile r) as Hsame.
  { intros r' Ei Eu El Es. split.
    - unfold selects. now rewrite Eu, El, Es.
    - unfold computed, routing, updateFor, leaveDate.
      rewrite (lookup r' r El), Ei, Es. reflexivity. }
  unfold expected.
  destruct (selects uid (now env) r); [|now apply Hsame].
  destruct (computed env profile r) as [u|]; [|now apply Hsame].
  destruct (written env u); [|now apply Hsame].
  destruct (touch r (patch u r)) as (E1 & E2 & _ & _ & _ & E6 & E7 & _).
  now apply Hsame.
Qed.

(** Processing a processed row again, at the same time or later, changes
    [updated_at] at most. *)
Lemma expected_again (r : CalendarEvent) (later : Z) :
  now env <= later ->
  sameButUpdatedAt (expected env uid profile r)
    (expected (withNow later env) uid profile (expected env uid profile r)).
Proof.
  intros Hlater.
  destruct (expected_selects r later) as (Es & Ec).
  set (r' := expected env uid profile r) in *.
  unfold expected at 1. cbn [withNow now].
  change (computed (withNow later env) profile r')
    with (computed env profile r').
  change (written (withNow later env)) with (written env).
  change (update_updated_at_column (withNow later env))
    with (update_updated_at_column env).
  rewrite Es, Ec.
  destruct (selects uid later r) eqn:Hs; [|repeat split].
  destruct (computed env profile r) as [u|] eqn:Hc; [|repeat split].
  destruct (written env u) eqn:Hw; [|repeat split].
  assert (selects uid (now env) r = true) as Hnow.
  { unfold selects in *. apply andb_true_iff in Hs. destruct Hs as [Hs Ht].
    rewrite Hs. apply Z.leb_le in Ht. apply Z.leb_le. lia. }
  assert (r' = update_updated_at_column env r (patch u r)) as Er'
    by (unfold r', expected; now rewrite Hnow, Hc, Hw).
  destruct (touch_same r' (patch u r'))
    as (H1 & H2 & H3 & H4 & H5 & H6 & H7 & H8 & H9 & H10 & H11 & H12).
  destruct (touch_same r (patch u r))
    as (_ & _ & _ & _ & _ & _ & _ & _ & _ & _ & G11 & G12).
  rewrite <- Er' in G11, G12. simpl in *.
  repeat split; try assumption; congruence.
Qed.

End Rerun.

Lemma filter_map_same {A : Type} (p : A -> bool) (f : A -> A) (l : list A) :
  (forall a, p (f a) = p a) -> filter p (map f l) = map f (filter p l).
Proof.
  intros H. induction l as [|a l IH]; simpl; [reflexivity|].
  rewrite H. destruct (p a); simpl; now rewrite IH.
Qed.

Lemma filter_length_le_imp {A : Type} (p q : A -> bool) (l : list A) :
  (forall a, p a = true -> q a = true) ->
  (List.length (filter p l) <= List.length (filter q l))%nat.
Proof.
  intros H. induction l as [|a l IH]; simpl; [lia|].
  destruct (p a) eqn:Hp.
  - rewrite (H a Hp). simpl. lia.
  - destruct (q a); simpl; lia.
Qed.

Lemma handler_withNow_outcome (env : Env) (later : Z) (table : list CalendarEvent) :
  (forall response, (forall n, response <> Updated n) ->
                    (forall t, handler env t = (response, t)) ->
                    forall t, handler (withNow later env) t = (response, t)) /\
  (forall uid profile, accepted env uid profile ->
                       accepted (withNow later env) uid profile).
Proof.
  split.
  - intros response Hno H t. specialize (H t). revert H.
    unfold handler, serve. cbn [withNow method authorization user profiles
                                 eventsError].
    destruct (method env =? "OPTIONS")%string; [trivial|].
    destruct (falsy (authorization env)); [trivial|]. cbn [bind].
    destruct (user env) as [uid|]; [|trivial]. cbn [bind].
    destruct (profiles env uid) as [p|]; [|trivial].
    destruct (falsy (home_location p)); [trivial|]. cbn [bind].
    destruct (eventsError env); [trivial|]. cbn [bind].
    intros H. injection H as E _. exfalso. eapply Hno. symmetry. exact E.
  - intros uid profile H. exact H.
Qed.

(** X16. Repeating the request is safe.  Take a table with unique ids, a
    trigger that changes [updated_at] only, and lookups that depend on the
    location of the event only.  A second request at the same time or
    later, with the same answers of the services and of the database,
    leaves every column of every row as the first left it, [updated_at]
    apart.  When the first request is turned down the second is turned down
    alike; otherwise the second reports a count, which is at most the count
    of the first (events that have started by then are no longer selected)
    and the same when the time is the same. *)
Theorem handler_rerun (env : Env) (table : list CalendarEvent) (later : Z) :
  NoDup (map id table) ->
  touchesUpdatedAtOnly env ->
  byLocation env ->
  now env <= later ->
  Forall2 sameButUpdatedAt
    (snd (handler env table))
    (snd (handler (withNow later env) (snd (handler env table)))) /\
  ((forall n, fst (handler env table) <> Updated n) ->
   fst (handler (withNow later env) (snd (handler env table)))
   = fst (handler env table)) /\
  (forall n,
      fst (handler env table) = Updated n ->
      exists m,
        fst (handler (withNow later env) (snd (handler env table))) = Updated m /\
        (m <= n)%nat /\
        (later = now env -> m = n)).
Proof.
  intros Hnd Htouch Hlookup Hlater.
  pose proof (touch_keepsId env Htouch) as Hkeep.
  destruct (handler_outcome env table)
    as [(response & Hno & E) | (uid & profile & Hacc)].
  - rewrite !(E table). cbn [fst snd].
    rewrite (proj1 (handler_withNow_outcome env later table) response Hno E
               table).
    cbn [fst snd]. split; [|split].
    + rewrite <- (map_id table) at 2.
      apply CalculateTravelFacts.Forall2_map_r. intros r _. repeat split.
    + reflexivity.
    + intros n Hn. now apply Hno in Hn.
  - assert (NoDup (map id (snd (handler env table)))) as Hnd'
      by (now rewrite handler_ids).
    pose proof (CalculateTravelFacts.handler_table env uid profile table
                  Hacc Hkeep Hnd) as E1.
    assert (accepted (withNow later env) uid profile) as Hacc' by exact Hacc.
    assert (keepsId (withNow later env)) as Hkeep' by exact Hkeep.
    pose proof (CalculateTravelFacts.handler_table (withNow later env) uid
                  profile _ Hacc' Hkeep' Hnd') as E2.
    assert (forall t now',
               List.length
                 (filter (fun e => notNull (computed env profile e))
                    (selectEvents uid now' (map (expected env uid profile) t)))
               = List.length
                   (filter (fun e => notNull (computed env profile e))
                      (selectEvents uid now' t))) as Hcount.
    { intros t now'. unfold selectEvents.
      rewrite (filter_map_same (selects uid now')).
      2:{ intros r. apply (expected_selects env Htouch Hlookup uid profile r). }
      rewrite (filter_map_same (fun e => notNull (computed env profile e))).
      2:{ intros r.
          now rewrite (proj2 (expected_selects env Htouch Hlookup
                                uid profile r now')). }
      apply length_map. }
    split; [|split].
    + rewrite E2, E1.
      clear - Htouch Hlookup Hlater.
      induction table as [|r l IH]; simpl; constructor; auto.
      now apply expected_again.
    + intros Hno. exfalso.
      rewrite (CalculateTravelFacts.handler_accepted env uid profile table Hacc)
        in Hno.
      exact (Hno _ eq_refl).
    + intros n Hn.
      set (t1 := snd (handler env table)) in *.
      rewrite (CalculateTravelFacts.handler_accepted (withNow later env) uid
                 profile t1 Hacc').
      rewrite (CalculateTravelFacts.handler_accepted env uid profile table Hacc)
        in Hn.
      cbn [fst] in *. injection Hn as <-. eexists. split; [reflexivity|].
      rewrite !CalculateTravelFacts.pushed_length, E1.
      cbn [withNow now].
      change (computed (withNow later env) profile)
        with (computed env profile).
      rewrite Hcount. split.
      * unfold selectEvents. rewrite !filter_filter_andb.
        apply filter_length_le_imp. intros e He.
        apply andb_true_iff in He. destruct He as [Hs Hc].
        rewrite Hc, andb_true_r.
        unfold selects in *. apply andb_true_iff in Hs. destruct Hs as [Hs Ht].
        rewrite Hs. apply Z.leb_le in Ht. apply Z.leb_le. lia.
      * now intros ->.
Qed.

Lemma handler_rerun_witness :
  fst (handler SampleByPlace.env Sample.table) = Updated 4 /\
  (exists m,
     fst (handler (withNow (Date.utc 2024 1 3 0 0 0) SampleByPlace.env)
            (snd (handler SampleByPlace.env Sample.table))) = Updated m /\
     (m <= 4)%nat) /\
  Forall2 sameButUpdatedAt
    (snd (handler SampleByPlace.env Sample.table))
    (snd (handler (withNow (Date.utc 2024 1 3 0 0 0) SampleByPlace.env)
            (snd (handler SampleByPlace.env Sample.table)))).
Proof.
  assert (NoDup (map id Sample.table)) as Hkey
    by (repeat constructor; simpl; intros H;
        repeat (destruct H as [H|H]; [discriminate|]); exact H).
  assert (touchesUpdatedAtOnly SampleByPlace.env) as Htouch
    by (intros old new; repeat split).
  assert (byLocation SampleByPlace.env) as Hplace
    by (intros e e' H; unfold SampleByPlace.env; cbn [directions];
        rewrite H; reflexivity).
  assert (now SampleByPlace.env <= Date.utc 2024 1 3 0 0 0) as Hlater
    by (vm_compute; discriminate).
  destruct (handler_rerun SampleByPlace.env Sample.table
              (Date.utc 2024 1 3 0 0 0) Hkey Htouch Hplace Hlater)
    as (Hrows & _ & Hcount).
  split; [reflexivity|]. split; [|exact Hrows].
  destruct (Hcount 4%nat eq_refl) as (m & Em & Hm & _).
  exists m. split; assumption.
Defined.

End CalculateTravelMore.
